(** * yabgp: the BGP protocol class (yabgp/core/protocol.py)

    A shallow embedding of [class BGP(protocol.Protocol)]: the receive
    buffer, the frame reader [parse_buffer], the message handlers, the
    capability and hold-time negotiation and the message counters.

    The collaborators of the class (the FSM, the factory, the transport and
    the message codecs of [yabgp.message]) live in other modules: every call
    the class makes to one of them is recorded, with its arguments, in the
    [calls] field of the state, in the order the calls are made. *)

From Stdlib Require Import ZArith Lia.
From Stdlib.Strings Require Import Byte.
From stdpp Require Import base list strings gmap.

Local Open Scope Z_scope.

(** ** Bytes and [struct] *)

Abbreviation bytes := (list byte).

(** [a == b] on byte strings. *)
Fixpoint bytes_eqb (a b : bytes) : bool :=
  match a, b with
  | [], [] => true
  | x :: a', y :: b' => Byte.eqb x y && bytes_eqb a' b'
  | _, _ => false
  end.

(** Python's [b[lo:hi]] for non-negative bounds. *)
Definition slice {A} (lo hi : nat) (l : list A) : list A :=
  drop lo (take hi l).

(** ** Exceptions and the state-and-exception monad *)

Inductive exn :=
| MessageHeaderError (sub_error : Z)
| OpenMessageError (sub_error : Z)
| RuntimeError
| KeyError
| StructError
| OtherException.

Inductive result (A : Type) :=
| Ok (a : A)
| Raise (e : exn).
Arguments Ok {A} a.
Arguments Raise {A} e.

(** ** Constants of [yabgp.common.constants] *)

Module bgp_cons.
(** Modelled from the spec: the constants module is not part of the
    sources; the header length, the length bound and the type codes are
    those of the wire format, the error sub-codes those of BGP-4. *)
Definition HDR_LEN : nat := 19.
Definition MAX_LEN : nat := 4096.
Definition MSG_OPEN : nat := 1.
Definition MSG_UPDATE : nat := 2.
Definition MSG_NOTIFICATION : nat := 3.
Definition MSG_KEEPALIVE : nat := 4.
Definition MSG_ROUTEREFRESH : nat := 5.
Definition MSG_CISCOROUTEREFRESH : nat := 128.
Definition VERSION : Z := 4.
Definition ERR_MSG_HDR_CONN_NOT_SYNC : Z := 1.
Definition ERR_MSG_HDR_BAD_MSG_LEN : Z := 2.
Definition ERR_MSG_HDR_BAD_MSG_TYPE : Z := 3.
Definition ERR_MSG_OPEN_BAD_PEER_AS : Z := 2.
Definition ERR_MSG_OPEN_UNACCPT_HOLD_TIME : Z := 6.
Definition BGPTYPE_MP_REACH_NLRI : Z := 14.
Definition BGPTYPE_MP_UNREACH_NLRI : Z := 15.
(** [AFI_SAFI_STR_DICT['ipv4']] *)
Definition AFI_SAFI_ipv4 : Z * Z := (1, 1).
End bgp_cons.

(** [struct.pack('!H', n)]: two bytes, network order; [struct.error] when
    [n] does not fit. *)
Definition pack_H (n : nat) : result bytes :=
  match Byte.of_nat (n / 256), Byte.of_nat (n mod 256) with
  | Some hi, Some lo => Ok [hi; lo]
  | _, _ => Raise StructError
  end.

(** [struct.unpack('!16sHB', b)]: [struct.error] unless [b] has 19 bytes. *)
Definition unpack_16sHB (b : bytes) : result (bytes * nat * nat) :=
  match drop 16 b with
  | [hi; lo; ty] =>
      if (length b =? 19)%nat
      then Ok (take 16 b, (256 * Byte.to_nat hi + Byte.to_nat lo)%nat, Byte.to_nat ty)
      else Raise StructError
  | _ => Raise StructError
  end.

(** ** Data model *)

(** A Python [dict] with string keys, as the list of its items in iteration
    order. *)
Definition dict (V : Type) := list (string * V).

Definition dict_keys {V} (d : dict V) : list string := d.*1.

(** [k in d] *)
Definition dict_mem {V} (k : string) (d : dict V) : bool :=
  existsb (String.eqb k) (dict_keys d).

(** [d.pop(k)] for a key that is present: the item is removed. *)
Definition dict_pop {V} (k : string) (d : dict V) : dict V :=
  filter (fun kv => negb (String.eqb k kv.1)) d.

(** Truth value of a dict: non-empty. *)
Definition dict_truthy {V} (d : dict V) : bool :=
  match d with [] => false | _ => true end.

(** Capability parameters. *)
Inductive capval :=
| CapBool (b : bool)
| CapInt (n : Z)
| CapAfiSafi (l : list (Z * Z))
| CapRaw (b : bytes).

(** [running_config[peer_addr]['capability']] *)
Record Capability := {
  local : dict capval;
  remote : dict capval
}.

(** The result of [Open().parse]: the fields of the Open object. *)
Record OpenMsg := {
  version : Z;
  asn : Z;
  open_hold_time : Z;
  bgp_id : Z;
  capa_dict : dict capval
}.

(** A decoded path attribute: the multiprotocol attributes are dicts that
    carry ['afi_safi']; the others are opaque here. *)
Inductive attr_value :=
| MpNlri (afi_safi : Z * Z) (nlri : list string)
| AttrOther (raw : bytes).

(** The result dict of [Update().parse]. *)
Record UpdateResult := {
  u_time : Z;
  u_sub_error : option Z;
  u_attr : gmap Z attr_value;
  u_nlri : list string;
  u_withdraw : list string
}.

(** The [msg] argument of [write_msg]. *)
Inductive payload :=
| POpen (m : OpenMsg)
| PUpdate (attr : gmap Z attr_value) (nlri withdraw : list string)
| PNotification (error suberror : Z) (data : bytes)
| PNone.

Inductive msg_kind := KOpen | KUpdate | KNotification | KKeepAlive | KRouteRefresh.

(** Modelled from the spec: the FSM ([yabgp.core.fsm]), the factory and the
    transport are not part of the sources. The FSM is signalled, the sink
    [write_msg] and the transport are handed their arguments: a call to one
    of them is recorded with its arguments and returns, and does not touch
    the fields of the protocol object. The calls to the codecs are recorded
    the same way. *)
Inductive call :=
| Fsm_header_error (suberror : Z) (data : option bytes)
| Fsm_open_message_error (suberror : Z)
| Fsm_open_received
| Fsm_update_received
| Fsm_keep_alive_received
| Fsm_notification_received (error suberror : Z)
| Factory_write_msg (timestamp : Z) (msg_type : Z) (msg : payload)
                    (afi_safi : Z * Z) (flush : bool)
| Channel_send_message (msg : payload)
| Transport_write (data : bytes)
| Peering_set_peer_id (id : Z)
| Codec_parse (kind : msg_kind) (msg : bytes).

(** [msg_sent_stat] and [msg_recv_stat]: the five counters. *)
Record Stat := {
  Opens : nat;
  Notifications : nat;
  Updates : nat;
  Keepalives : nat;
  RouteRefresh : nat
}.

(** The fields of the FSM that the class reads and writes; [peer_asn] is
    [fsm.bgp_peering.peer_asn]. *)
Record FSM := {
  hold_time : Z;
  keep_alive_time : Z;
  peer_asn : Z
}.

(** The protocol object. [ticks] counts the readings of [time.time()] so
    far; [capability] is the entry of the peer in the running
    configuration. *)
Record BGP := {
  fsm : FSM;
  peer_id : option Z;
  disconnected : bool;
  receive_buffer : bytes;
  fourbytesas : bool;
  msg_sent_stat : Stat;
  msg_recv_stat : Stat;
  capability : Capability;
  ticks : nat;
  calls : list call
}.

(** [BGP.__init__], for a given FSM and running configuration. *)
Definition stat0 : Stat :=
  {| Opens := 0; Notifications := 0; Updates := 0; Keepalives := 0; RouteRefresh := 0 |}.

Definition init (f : FSM) (c : Capability) : BGP :=
  {| fsm := f; peer_id := None; disconnected := false; receive_buffer := [];
     fourbytesas := false; msg_sent_stat := stat0; msg_recv_stat := stat0;
     capability := c; ticks := 0; calls := [] |}.

(** Field updates. *)
Definition set_fsm (f : FSM) (s : BGP) : BGP :=
  {| fsm := f; peer_id := peer_id s; disconnected := disconnected s;
     receive_buffer := receive_buffer s; fourbytesas := fourbytesas s;
     msg_sent_stat := msg_sent_stat s; msg_recv_stat := msg_recv_stat s;
     capability := capability s; ticks := ticks s; calls := calls s |}.

Definition set_peer_id (p : option Z) (s : BGP) : BGP :=
  {| fsm := fsm s; peer_id := p; disconnected := disconnected s;
     receive_buffer := receive_buffer s; fourbytesas := fourbytesas s;
     msg_sent_stat := msg_sent_stat s; msg_recv_stat := msg_recv_stat s;
     capability := capability s; ticks := ticks s; calls := calls s |}.

Definition set_receive_buffer (b : bytes) (s : BGP) : BGP :=
  {| fsm := fsm s; peer_id := peer_id s; disconnected := disconnected s;
     receive_buffer := b; fourbytesas := fourbytesas s;
     msg_sent_stat := msg_sent_stat s; msg_recv_stat := msg_recv_stat s;
     capability := capability s; ticks := ticks s; calls := calls s |}.

Definition set_fourbytesas (b : bool) (s : BGP) : BGP :=
  {| fsm := fsm s; peer_id := peer_id s; disconnected := disconnected s;
     receive_buffer := receive_buffer s; fourbytesas := b;
     msg_sent_stat := msg_sent_stat s; msg_recv_stat := msg_recv_stat s;
     capability := capability s; ticks := ticks s; calls := calls s |}.

Definition set_msg_sent_stat (st : Stat) (s : BGP) : BGP :=
  {| fsm := fsm s; peer_id := peer_id s; disconnected := disconnected s;
     receive_buffer := receive_buffer s; fourbytesas := fourbytesas s;
     msg_sent_stat := st; msg_recv_stat := msg_recv_stat s;
     capability := capability s; ticks := ticks s; calls := calls s |}.

Definition set_msg_recv_stat (st : Stat) (s : BGP) : BGP :=
  {| fsm := fsm s; peer_id := peer_id s; disconnected := disconnected s;
     receive_buffer := receive_buffer s; fourbytesas := fourbytesas s;
     msg_sent_stat := msg_sent_stat s; msg_recv_stat := st;
     capability := capability s; ticks := ticks s; calls := calls s |}.

Definition set_capability (c : Capability) (s : BGP) : BGP :=
  {| fsm := fsm s; peer_id := peer_id s; disconnected := disconnected s;
     receive_buffer := receive_buffer s; fourbytesas := fourbytesas s;
     msg_sent_stat := msg_sent_stat s; msg_recv_stat := msg_recv_stat s;
     capability := c; ticks := ticks s; calls := calls s |}.

Definition set_ticks (n : nat) (s : BGP) : BGP :=
  {| fsm := fsm s; peer_id := peer_id s; disconnected := disconnected s;
     receive_buffer := receive_buffer s; fourbytesas := fourbytesas s;
     msg_sent_stat := msg_sent_stat s; msg_recv_stat := msg_recv_stat s;
     capability := capability s; ticks := n; calls := calls s |}.

Definition set_calls (l : list call) (s : BGP) : BGP :=
  {| fsm := fsm s; peer_id := peer_id s; disconnected := disconnected s;
     receive_buffer := receive_buffer s; fourbytesas := fourbytesas s;
     msg_sent_stat := msg_sent_stat s; msg_recv_stat := msg_recv_stat s;
     capability := capability s; ticks := ticks s; calls := l |}.

Definition set_hold_time (h : Z) (f : FSM) : FSM :=
  {| hold_time := h; keep_alive_time := keep_alive_time f; peer_asn := peer_asn f |}.

Definition set_keep_alive_time (k : Z) (f : FSM) : FSM :=
  {| hold_time := hold_time f; keep_alive_time := k; peer_asn := peer_asn f |}.

Definition set_local (d : dict capval) (c : Capability) : Capability :=
  {| local := d; remote := remote c |}.

Definition set_remote (d : dict capval) (c : Capability) : Capability :=
  {| local := local c; remote := d |}.

(** [stat[key] += 1], one function per key. *)
Definition incr_Opens (st : Stat) : Stat :=
  {| Opens := S (Opens st); Notifications := Notifications st; Updates := Updates st;
     Keepalives := Keepalives st; RouteRefresh := RouteRefresh st |}.

Definition incr_Notifications (st : Stat) : Stat :=
  {| Opens := Opens st; Notifications := S (Notifications st); Updates := Updates st;
     Keepalives := Keepalives st; RouteRefresh := RouteRefresh st |}.

Definition incr_Updates (st : Stat) : Stat :=
  {| Opens := Opens st; Notifications := Notifications st; Updates := S (Updates st);
     Keepalives := Keepalives st; RouteRefresh := RouteRefresh st |}.

Definition incr_Keepalives (st : Stat) : Stat :=
  {| Opens := Opens st; Notifications := Notifications st; Updates := Updates st;
     Keepalives := S (Keepalives st); RouteRefresh := RouteRefresh st |}.

Definition incr_RouteRefresh (st : Stat) : Stat :=
  {| Opens := Opens st; Notifications := Notifications st; Updates := Updates st;
     Keepalives := Keepalives st; RouteRefresh := S (RouteRefresh st) |}.

(** The monad of the methods: the object is threaded through, and a method
    either returns or raises; what it did to the object before raising
    stays done. *)
Definition M (A : Type) : Type := BGP -> result A * BGP.

Definition ret {A} (a : A) : M A := fun s => (Ok a, s).

Definition raise {A} (e : exn) : M A := fun s => (Raise e, s).

Definition bind {A B} (m : M A) (k : A -> M B) : M B :=
  fun s => match m s with
           | (Ok a, s') => k a s'
           | (Raise e, s') => (Raise e, s')
           end.

(** [try: m  except Exception as e: h e] *)
Definition try_except {A} (m : M A) (h : exn -> M A) : M A :=
  fun s => match m s with
           | (Ok a, s') => (Ok a, s')
           | (Raise e, s') => h e s'
           end.

Definition lift {A} (r : result A) : M A := fun s => (r, s).

Definition get {A} (f : BGP -> A) : M A := fun s => (Ok (f s), s).

Definition modify (f : BGP -> BGP) : M unit := fun s => (Ok tt, f s).

(** A call to a collaborator, appended to the record of calls. *)
Definition emit (c : call) : M unit :=
  modify (fun s => set_calls (calls s ++ [c]) s).

Declare Scope bgp_scope.
Delimit Scope bgp_scope with bgp.
Notation "x <- m ;; k" := (bind m (fun x => k))
  (at level 100, m at next level, right associativity) : bgp_scope.
Notation "m ;; k" := (bind m (fun _ => k))
  (at level 100, right associativity) : bgp_scope.
Local Open Scope bgp_scope.

(** Truth values of the Python objects that the class tests. *)
Definition truthy_list {A} (l : list A) : bool :=
  match l with [] => false | _ => true end.

Definition truthy_sub_error (o : option Z) : bool :=
  match o with
  | Some z => negb (z =? 0)
  | None => false
  end.

Definition truthy_capval (v : capval) : bool :=
  match v with
  | CapBool b => b
  | CapInt n => negb (n =? 0)
  | CapAfiSafi l => truthy_list l
  | CapRaw b => truthy_list b
  end.

(** [d[k]]: [KeyError] when the key is absent. *)
Fixpoint dict_get {V} (k : string) (d : dict V) : result V :=
  match d with
  | [] => Raise KeyError
  | (k', v) :: d' => if String.eqb k k' then Ok v else dict_get k d'
  end.

(** [v['afi_safi']] on a decoded attribute. *)
Definition attr_afi_safi (v : attr_value) : result (Z * Z) :=
  match v with
  | MpNlri a _ => Ok a
  | AttrOther _ => Raise KeyError
  end.

(** ** The collaborators *)

(** The message classes of [yabgp.message], which are not part of the
    sources, are a parameter: each [parse] and [construct] returns or
    raises. *)
Record Codec := {
  Open_parse : bytes -> result OpenMsg;
  Update_parse : Z -> bool -> bytes -> result UpdateResult;
  Notification_parse : bytes -> result (Z * Z * bytes);
  KeepAlive_parse : bytes -> result unit;
  RouteRefresh_parse : bytes -> result (Z * Z * Z);
  Open_construct : Z -> Z -> Z -> Z -> dict capval -> result bytes;
  Update_construct : payload -> bool -> result bytes;
  Notification_construct : Z -> Z -> bytes -> result bytes;
  KeepAlive_construct : result bytes;
  RouteRefresh_construct : Z -> Z -> Z -> nat -> result bytes
}.

(** What the class reads of [CONF] and of its factory. *)
Record Conf := {
  standalone : bool;
  write_keepalive : bool;
  my_asn : Z;
  factory_bgp_id : Z
}.

Section Protocol.

Variable codec : Codec.
Variable conf : Conf.
(** [time.time()]: the n-th reading of the clock. *)
Variable clock : nat -> Z.

Definition time_time : M Z :=
  fun s => (Ok (clock (ticks s)), set_ticks (S (ticks s)) s).

(** [X().parse(msg)]: the call is recorded, then returns or raises. *)
Definition parse {A} (kind : msg_kind) (msg : bytes) (r : result A) : M A :=
  emit (Codec_parse kind msg) ;; lift r.

Definition transport_write (data : bytes) : M unit :=
  emit (Transport_write data).

(** *** negotiate_hold_time

    [hold_time / 3] is the division of Python 2 integers: the floor,
    which is [Z.div]. *)
Definition negotiate_hold_time (hold_time' : Z) : M unit :=
  modify (fun s => set_fsm (set_hold_time (Z.min (hold_time (fsm s)) hold_time') (fsm s)) s) ;;
  h <- get (fun s => hold_time (fsm s)) ;;
  (if negb (h =? 0) && (h <? 3)
   then emit (Fsm_open_message_error bgp_cons.ERR_MSG_OPEN_UNACCPT_HOLD_TIME)
   else ret tt) ;;
  modify (fun s => set_fsm (set_keep_alive_time (hold_time (fsm s) / 3) (fsm s)) s).

(** *** capability_negotiate

    The [for] loop runs over the live dict: a dict iterator remembers the
    size the dict had when the loop began and raises [RuntimeError] at
    its next step once the size has changed. [pending] is what the
    iterator has not yet yielded. *)
Fixpoint capability_loop (used : nat) (pending : list string) : M unit :=
  fun s =>
    if negb (length (local (capability s)) =? used)%nat then (Raise RuntimeError, s)
    else match pending with
         | [] => (Ok tt, s)
         | capability' :: rest =>
             if negb (dict_mem capability' (remote (capability s)))
             then capability_loop used rest
                    (set_capability
                       (set_local (dict_pop capability' (local (capability s)))
                                  (capability s)) s)
             else capability_loop used rest s
         end.

Definition capability_negotiate : M unit :=
  fun s =>
    if dict_truthy (remote (capability s))
    then capability_loop (length (local (capability s)))
                         (dict_keys (local (capability s))) s
    else (Ok tt, s).

(** *** The senders *)

Definition send_update (msg : payload) : M bool :=
  try_except
    (fba <- get fourbytesas ;;
     msg_update <- lift (Update_construct codec msg fba) ;;
     transport_write msg_update ;;
     modify (fun s => set_msg_sent_stat (incr_Updates (msg_sent_stat s)) s) ;;
     ret true)
    (fun _ => ret false).

Definition send_notification (error sub_error : Z) (data : bytes) : M unit :=
  modify (fun s => set_msg_sent_stat (incr_Notifications (msg_sent_stat s)) s) ;;
  modify (fun s => set_msg_sent_stat (incr_Notifications (msg_sent_stat s)) s) ;;
  msg_notification <- lift (Notification_construct codec error sub_error data) ;;
  transport_write msg_notification.

Definition send_keepalive : M unit :=
  modify (fun s => set_msg_sent_stat (incr_Keepalives (msg_sent_stat s)) s) ;;
  msg_keepalive <- lift (KeepAlive_construct codec) ;;
  transport_write msg_keepalive.

Definition send_open : M unit :=
  capability_negotiate ;;
  h <- get (fun s => hold_time (fsm s)) ;;
  l <- get (fun s => local (capability s)) ;;
  open_msg <- lift (Open_construct codec bgp_cons.VERSION (my_asn conf) h
                                   (factory_bgp_id conf) l) ;;
  transport_write open_msg ;;
  modify (fun s => set_msg_sent_stat (incr_Opens (msg_sent_stat s)) s).

Definition send_route_refresh (afi safi res : Z) : M bool :=
  r <- get (fun s => remote (capability s)) ;;
  cisco <- lift (dict_get "cisco_route_refresh" r) ;;
  let continue (type_code : nat) : M bool :=
    l <- lift (dict_get "afi_safi" r) ;;
    match l with
    | CapAfiSafi pairs =>
        if negb (bool_decide ((afi, safi) ∈ pairs)) then ret false
        else
          msg_routerefresh <- lift (RouteRefresh_construct codec afi safi res type_code) ;;
          transport_write msg_routerefresh ;;
          modify (fun s => set_msg_sent_stat (incr_RouteRefresh (msg_sent_stat s)) s) ;;
          ret true
    | _ => raise OtherException
    end in
  if truthy_capval cisco then continue bgp_cons.MSG_CISCOROUTEREFRESH
  else
    rr <- lift (dict_get "route_refresh" r) ;;
    if truthy_capval rr then continue bgp_cons.MSG_ROUTEREFRESH
    else ret false.

(** *** The receivers *)

Definition update_received (timestamp : Z) (msg : bytes) : M unit :=
  fba <- get fourbytesas ;;
  result <- parse KUpdate msg (Update_parse codec timestamp fba msg) ;;
  (if truthy_sub_error (u_sub_error result) then
     let afi_safi :=
       if truthy_list (u_nlri result) || truthy_list (u_withdraw result)
       then bgp_cons.AFI_SAFI_ipv4 else (0, 0) in
     emit (Factory_write_msg (u_time result) 6
             (PUpdate (u_attr result) (u_nlri result) (u_withdraw result))
             afi_safi true)
   else
     afi_safi <-
       (if truthy_list (u_nlri result) || truthy_list (u_withdraw result)
        then ret bgp_cons.AFI_SAFI_ipv4
        else match u_attr result !! bgp_cons.BGPTYPE_MP_REACH_NLRI with
             | Some v => lift (attr_afi_safi v)
             | None =>
                 match u_attr result !! bgp_cons.BGPTYPE_MP_UNREACH_NLRI with
                 | Some v => lift (attr_afi_safi v)
                 | None => ret (0, 0)
                 end
             end) ;;
     let msg' := PUpdate (u_attr result) (u_nlri result) (u_withdraw result) in
     emit (Factory_write_msg (u_time result) (Z.of_nat bgp_cons.MSG_UPDATE)
             msg' afi_safi true) ;;
     if negb (standalone conf) then emit (Channel_send_message msg') else ret tt) ;;
  modify (fun s => set_msg_recv_stat (incr_Updates (msg_recv_stat s)) s) ;;
  emit Fsm_update_received.

Definition notification_received (msg : Z * Z * bytes) : M unit :=
  modify (fun s => set_msg_recv_stat (incr_Notifications (msg_recv_stat s)) s) ;;
  t <- time_time ;;
  emit (Factory_write_msg t 3 (PNotification msg.1.1 msg.1.2 msg.2) (0, 0) true) ;;
  emit (Fsm_notification_received msg.1.1 msg.1.2).

Definition keepalive_received (timestamp : Z) (msg : bytes) : M unit :=
  modify (fun s => set_msg_recv_stat (incr_Keepalives (msg_recv_stat s)) s) ;;
  parse KKeepAlive msg (KeepAlive_parse codec msg) ;;
  (if write_keepalive conf
   then emit (Factory_write_msg timestamp 4 PNone (0, 0) true)
   else ret tt) ;;
  emit Fsm_keep_alive_received.

Definition open_received (timestamp : Z) (msg : bytes) : M unit :=
  modify (fun s => set_msg_recv_stat (incr_Opens (msg_recv_stat s)) s) ;;
  open_msg <- parse KOpen msg (Open_parse codec msg) ;;
  p <- get (fun s => peer_asn (fsm s)) ;;
  if negb (p =? asn open_msg)
  then raise (OpenMessageError bgp_cons.ERR_MSG_OPEN_BAD_PEER_AS)
  else
    modify (fun s => set_capability (set_remote (capa_dict open_msg) (capability s)) s) ;;
    modify (fun s => if dict_mem "four_bytes_as" (remote (capability s))
                     then set_fourbytesas true s else s) ;;
    emit (Factory_write_msg timestamp 1 (POpen open_msg) (0, 0) true) ;;
    modify (set_peer_id (Some (bgp_id open_msg))) ;;
    emit (Peering_set_peer_id (bgp_id open_msg)) ;;
    negotiate_hold_time (open_hold_time open_msg) ;;
    emit Fsm_open_received.

(** Only logs. *)
Definition route_refresh_received (msg : Z * Z * Z) : M unit := ret tt.

(** *** parse_buffer *)

(** How the [try] block of [parse_buffer] is left: by one of its
    [return False], or by falling through to the line that advances the
    buffer. *)
Inductive flow := ReturnFalse | FallThrough.

(** The [try] block: dispatch on the type code. Whatever exception
    reaches the outer [except Exception] is logged and dropped. *)
Definition dispatch (t : Z) (msg_type : nat) (msg : bytes) : M flow :=
  try_except
    (if (msg_type =? bgp_cons.MSG_OPEN)%nat then
       try_except
         (open_received t msg ;; ret FallThrough)
         (fun e => match e with
                   | MessageHeaderError sub =>
                       emit (Fsm_header_error sub None) ;; ret ReturnFalse
                   | OpenMessageError sub =>
                       emit (Fsm_open_message_error sub) ;; ret ReturnFalse
                   | _ => raise e
                   end)
     else if (msg_type =? bgp_cons.MSG_UPDATE)%nat then
       update_received t msg ;; ret FallThrough
     else if (msg_type =? bgp_cons.MSG_NOTIFICATION)%nat then
       n <- parse KNotification msg (Notification_parse codec msg) ;;
       notification_received n ;; ret FallThrough
     else if (msg_type =? bgp_cons.MSG_KEEPALIVE)%nat then
       try_except
         (keepalive_received t msg ;; ret FallThrough)
         (fun e => match e with
                   | MessageHeaderError sub =>
                       emit (Fsm_header_error sub None) ;; ret ReturnFalse
                   | _ => raise e
                   end)
     else if (msg_type =? bgp_cons.MSG_ROUTEREFRESH)%nat then
       route_refresh_msg <- parse KRouteRefresh msg (RouteRefresh_parse codec msg) ;;
       route_refresh_received route_refresh_msg ;; ret FallThrough
     else if (msg_type =? bgp_cons.MSG_CISCOROUTEREFRESH)%nat then
       route_refresh_msg <- parse KRouteRefresh msg (RouteRefresh_parse codec msg) ;;
       route_refresh_received route_refresh_msg ;; ret FallThrough
     else
       data <- lift (pack_H msg_type) ;;
       emit (Fsm_header_error bgp_cons.ERR_MSG_HDR_BAD_MSG_TYPE (Some data)) ;;
       ret FallThrough)
    (fun _ => ret FallThrough).

(** The part of [parse_buffer] after the length check: wait for the
    whole message, dispatch it, advance the buffer. *)
Definition parse_message (buf : bytes) (length' msg_type : nat) : M bool :=
  if (length buf <? length')%nat then ret false
  else
    let msg := slice bgp_cons.HDR_LEN length' buf in
    t <- time_time ;;
    f <- dispatch t msg_type msg ;;
    match f with
    | ReturnFalse => ret false
    | FallThrough =>
        modify (fun s => set_receive_buffer (drop length' (receive_buffer s)) s) ;;
        ret true
    end.

Definition parse_buffer : M bool :=
  buf <- get receive_buffer ;;
  if (length buf <? bgp_cons.HDR_LEN)%nat then ret false
  else if negb (bytes_eqb (take 16 buf) (replicate 16 xff)) then
    emit (Fsm_header_error bgp_cons.ERR_MSG_HDR_CONN_NOT_SYNC None) ;;
    ret false
  else
    h <- try_except
           (x <- lift (unpack_16sHB (take bgp_cons.HDR_LEN buf)) ;; ret (Some x))
           (fun _ =>
              emit (Fsm_header_error bgp_cons.ERR_MSG_HDR_CONN_NOT_SYNC None) ;;
              ret None) ;;
    match h with
    | None => ret false
    | Some (marker, length', msg_type) =>
        (if (length' <? bgp_cons.HDR_LEN)%nat || (bgp_cons.MAX_LEN <? length')%nat
         then
           data <- lift (pack_H length') ;;
           emit (Fsm_header_error bgp_cons.ERR_MSG_HDR_BAD_MSG_LEN (Some data))
         else ret tt) ;;
        parse_message buf length' msg_type
    end.

(** *** dataReceived

    [while self.parse_buffer(): pass] need not stop, so the loop takes
    fuel: [None] when the fuel runs out, otherwise how the loop ended. *)
Fixpoint drain (fuel : nat) (s : BGP) : option (result unit * BGP) :=
  match fuel with
  | O => None
  | S fuel' =>
      match parse_buffer s with
      | (Ok true, s') => drain fuel' s'
      | (Ok false, s') => Some (Ok tt, s')
      | (Raise e, s') => Some (Raise e, s')
      end
  end.

Definition dataReceived (fuel : nat) (data : bytes) (s : BGP)
  : option (result unit * BGP) :=
  drain fuel (set_receive_buffer (receive_buffer s ++ data) s).

End Protocol.

Arguments parse_buffer codec conf clock s : rename.
Arguments dispatch codec conf clock t msg_type msg s : rename.

(** The transport calls [dataReceived] once for every chunk of bytes that
    it reads, for as long as the protocol returns from it. *)
Fixpoint receive_all (codec : Codec) (conf : Conf) (clock : nat -> Z)
    (fuel : nat) (chunks : list bytes) (s : BGP) : option (result unit * BGP) :=
  match chunks with
  | [] => Some (Ok tt, s)
  | data :: rest =>
      match dataReceived codec conf clock fuel data s with
      | Some (Ok _, s') => receive_all codec conf clock fuel rest s'
      | ended => ended
      end
  end.

(** * The connection events

    [connectionMade], [connectionLost] and [closeConnection] read and write
    two fields of the transport and one of the factory, and call the
    transport, the FSM and the factory; a [Link] is the protocol object
    together with those fields and the record of those calls. *)

Inductive link_call :=
| Transport_setTcpNoDelay (enabled : bool)
| Transport_loseConnection
| Fsm_connection_made
| Fsm_connection_failed
| Factory_connection_closed.

Record Link := {
  protocol : BGP;
  transport_connected : bool;
  transport_host : string;
  bgp_id_of_factory : option Z;
  link_calls : list link_call
}.

Definition set_disconnected (b : bool) (s : BGP) : BGP :=
  {| fsm := fsm s; peer_id := peer_id s; disconnected := b;
     receive_buffer := receive_buffer s; fourbytesas := fourbytesas s;
     msg_sent_stat := msg_sent_stat s; msg_recv_stat := msg_recv_stat s;
     capability := capability s; ticks := ticks s; calls := calls s |}.

Definition set_protocol (s : BGP) (l : Link) : Link :=
  {| protocol := s; transport_connected := transport_connected l;
     transport_host := transport_host l; bgp_id_of_factory := bgp_id_of_factory l;
     link_calls := link_calls l |}.

Definition set_bgp_id_of_factory (b : option Z) (l : Link) : Link :=
  {| protocol := protocol l; transport_connected := transport_connected l;
     transport_host := transport_host l; bgp_id_of_factory := b;
     link_calls := link_calls l |}.

Definition link_call_made (c : link_call) (l : Link) : Link :=
  {| protocol := protocol l; transport_connected := transport_connected l;
     transport_host := transport_host l; bgp_id_of_factory := bgp_id_of_factory l;
     link_calls := link_calls l ++ [c] |}.

Section Connection.

(** [int(netaddr.IPAddress(host))]: returns or raises. *)
Variable IPAddress_int : string -> result Z.
(** How [self.fsm.connection_made()] and [self.fsm.connection_failed()]
    end: both are called under [try]. *)
Variable fsm_connection_made : result unit.
Variable fsm_connection_failed : result unit.

Definition connectionMade (l : Link) : result unit * Link :=
  let l := link_call_made (Transport_setTcpNoDelay true) l in
  let identified : result unit * Link :=
    match bgp_id_of_factory l with
    | None =>
        match IPAddress_int (transport_host l) with
        | Ok n => (Ok tt, set_bgp_id_of_factory (Some n) l)
        | Raise _ =>
            match IPAddress_int "127.0.0.1" with
            | Ok n => (Ok tt, set_bgp_id_of_factory (Some n) l)
            | Raise e => (Raise e, l)
            end
        end
    | Some _ => (Ok tt, l)
    end in
  match identified with
  | (Raise e, l) => (Raise e, l)
  | (Ok _, l) =>
      let l := link_call_made Fsm_connection_made l in
      match fsm_connection_made with
      | Ok _ => (Ok tt, l)
      | Raise _ => (Ok tt, l)
      end
  end.

Definition connectionLost (l : Link) : result unit * Link :=
  if disconnected (protocol l)
  then (Ok tt, link_call_made Factory_connection_closed l)
  else
    let l := link_call_made Fsm_connection_failed l in
    match fsm_connection_failed with
    | Ok _ => (Ok tt, l)
    | Raise _ => (Ok tt, l)
    end.

Definition closeConnection (l : Link) : result unit * Link :=
  if transport_connected l
  then
    let l := link_call_made Transport_loseConnection l in
    (Ok tt, set_protocol (set_disconnected true (protocol l)) l)
  else (Ok tt, l).

End Connection.

(** * The configuration (yabgp/config.py) *)

Module config.

(** An entry of [CONF.bgp.running_config]. *)
Record PeerConf := {
  remote_as : Z;
  remote_addr : string;
  local_as : Z;
  local_addr : string;
  md5 : option string;
  afi_safi : list string;
  capability : Capability
}.

(** The options of the group [bgp] that [get_bgp_config] reads; an option
    without default is [None] until it is given. *)
Record Options := {
  opt_afi_safi : list string;
  opt_four_bytes_as : bool;
  opt_route_refresh : bool;
  opt_cisco_route_refresh : bool;
  opt_enhanced_route_refresh : bool;
  opt_add_path : Z;
  opt_graceful_restart : bool;
  opt_cisco_multi_session : bool;
  running_config : gmap string PeerConf;
  config_file : option string;
  opt_remote_as : option Z;
  opt_local_as : option Z;
  opt_remote_addr : option string;
  opt_local_addr : option string;
  opt_md5 : option string
}.

Definition set_running_config (r : gmap string PeerConf) (c : Options) : Options :=
  {| opt_afi_safi := opt_afi_safi c; opt_four_bytes_as := opt_four_bytes_as c;
     opt_route_refresh := opt_route_refresh c;
     opt_cisco_route_refresh := opt_cisco_route_refresh c;
     opt_enhanced_route_refresh := opt_enhanced_route_refresh c;
     opt_add_path := opt_add_path c; opt_graceful_restart := opt_graceful_restart c;
     opt_cisco_multi_session := opt_cisco_multi_session c;
     running_config := r; config_file := config_file c;
     opt_remote_as := opt_remote_as c; opt_local_as := opt_local_as c;
     opt_remote_addr := opt_remote_addr c; opt_local_addr := opt_local_addr c;
     opt_md5 := opt_md5 c |}.

(** Truth values of an integer and of a string option. *)
Definition truthy_int (o : option Z) : bool :=
  match o with
  | Some z => negb (z =? 0)
  | None => false
  end.

Definition truthy_str (o : option string) : bool :=
  match o with
  | Some s => negb (String.eqb s "")
  | None => false
  end.

(** The dict literal of the ['local'] capabilities. *)
Definition local_capabilities (c : Options) : dict capval :=
  [("four_bytes_as"%string, CapBool (opt_four_bytes_as c));
   ("route_refresh"%string, CapBool (opt_route_refresh c));
   ("cisco_route_refresh"%string, CapBool (opt_cisco_route_refresh c));
   ("enhanced_route_refresh"%string, CapBool (opt_enhanced_route_refresh c));
   ("graceful_restart"%string, CapBool (opt_graceful_restart c));
   ("cisco_multi_session"%string, CapBool (opt_cisco_multi_session c));
   ("add_path"%string, CapInt (opt_add_path c))].

(** How [get_bgp_config] ends: by [sys.exit()] or by returning, with the
    options as it leaves them. *)
Inductive outcome :=
| Exit
| Return (c : Options).

Definition get_bgp_config (c : Options) : outcome :=
  if truthy_str (config_file c) then Exit
  else if truthy_int (opt_local_as c) && truthy_int (opt_remote_as c)
          && truthy_str (opt_local_addr c) && truthy_str (opt_remote_addr c)
  then
    match opt_local_as c, opt_remote_as c, opt_local_addr c, opt_remote_addr c with
    | Some la, Some ra, Some laddr, Some raddr =>
        Return
          (set_running_config
             (<[ raddr :=
                   {| remote_as := ra; remote_addr := raddr;
                      local_as := la; local_addr := laddr;
                      md5 := opt_md5 c; afi_safi := opt_afi_safi c;
                      capability := {| local := local_capabilities c; remote := [] |} |} ]>
                (running_config c))
             c)
    | _, _, _, _ => Exit
    end
  else Exit.

End config.

(** * Vocabulary of the properties *)

(** [keeps P m]: the method [m] does not touch the receive buffer nor the
    peer AS that the FSM expects, only adds to the record of calls, and
    every call it adds satisfies [P]. *)

Definition keeps {A} (P : call -> Prop) (m : M A) : Prop :=
  forall s,
    receive_buffer (m s).2 = receive_buffer s /\
    peer_asn (fsm (m s).2) = peer_asn (fsm s) /\
    exists l, calls (m s).2 = calls s ++ l /\ Forall P l.

(** The calls that hand a message body to a codec hand it [msg]. *)
Definition parses_only (msg : bytes) (c : call) : Prop :=
  forall kind m, c = Codec_parse kind m -> m = msg.

(** The messages on which [parse_buffer] takes one of the [return False]
    of its [try] block: an Open whose decoding raises a header or Open
    error or whose AS is not the expected one, a KeepAlive whose decoding
    raises a header error. *)
Definition error_return (codec : Codec) (s : BGP) (msg_type : nat) (msg : bytes) : bool :=
  if (msg_type =? bgp_cons.MSG_OPEN)%nat then
    match Open_parse codec msg with
    | Raise (MessageHeaderError _) | Raise (OpenMessageError _) => true
    | Ok open_msg => negb (peer_asn (fsm s) =? asn open_msg)
    | Raise _ => false
    end
  else if (msg_type =? bgp_cons.MSG_KEEPALIVE)%nat then
    match KeepAlive_parse codec msg with
    | Raise (MessageHeaderError _) => true
    | _ => false
    end
  else false.

(** [only f m s]: from [s], the block [m] ends with [f] unless it raises. *)
Definition only {A} (f : A) (m : M A) (s : BGP) : Prop :=
  (m s).1 = Ok f \/ exists e, (m s).1 = Raise e.

(** The header that a buffer starts with. *)
Definition header (buf : bytes) : result (bytes * nat * nat) :=
  unpack_16sHB (take bgp_cons.HDR_LEN buf).

Definition bad_length (n : nat) : bool :=
  (n <? bgp_cons.HDR_LEN)%nat || (bgp_cons.MAX_LEN <? n)%nat.

(** The calls made between two states of the object. *)
Definition new_calls (s s' : BGP) : list call :=
  drop (length (calls s)) (calls s').

(** The report of a length outside 19..4096, when there is one. *)
Definition length_report (n : nat) (data : bytes) : list call :=
  if bad_length n
  then [Fsm_header_error bgp_cons.ERR_MSG_HDR_BAD_MSG_LEN (Some data)]
  else [].

(** The five ways one call of [parse_buffer] can go, with what each leaves
    in the buffer and in the record of calls. *)
Inductive reads (codec : Codec) (s : BGP) : result bool -> BGP -> Prop :=
| reads_short :
    (length (receive_buffer s) < 19)%nat ->
    reads codec s (Ok false) s
| reads_unsync s' :
    (19 <= length (receive_buffer s))%nat ->
    take 16 (receive_buffer s) <> replicate 16 xff ->
    receive_buffer s' = receive_buffer s ->
    calls s' = calls s ++ [Fsm_header_error bgp_cons.ERR_MSG_HDR_CONN_NOT_SYNC None] ->
    reads codec s (Ok false) s'
| reads_wait marker n ty data s' :
    take 16 (receive_buffer s) = replicate 16 xff ->
    header (receive_buffer s) = Ok (marker, n, ty) ->
    pack_H n = Ok data ->
    (length (receive_buffer s) < n)%nat ->
    receive_buffer s' = receive_buffer s ->
    calls s' = calls s ++ length_report n data ->
    reads codec s (Ok false) s'
| reads_rejected marker n ty data l s' :
    take 16 (receive_buffer s) = replicate 16 xff ->
    header (receive_buffer s) = Ok (marker, n, ty) ->
    pack_H n = Ok data ->
    (n <= length (receive_buffer s))%nat ->
    error_return codec s ty (slice 19 n (receive_buffer s)) = true ->
    receive_buffer s' = receive_buffer s ->
    calls s' = calls s ++ length_report n data ++ l ->
    Forall (parses_only (slice 19 n (receive_buffer s))) l ->
    reads codec s (Ok false) s'
| reads_consumed marker n ty data l s' :
    take 16 (receive_buffer s) = replicate 16 xff ->
    header (receive_buffer s) = Ok (marker, n, ty) ->
    pack_H n = Ok data ->
    (n <= length (receive_buffer s))%nat ->
    error_return codec s ty (slice 19 n (receive_buffer s)) = false ->
    receive_buffer s' = drop n (receive_buffer s) ->
    calls s' = calls s ++ length_report n data ++ l ->
    Forall (parses_only (slice 19 n (receive_buffer s))) l ->
    reads codec s (Ok true) s'.


(** The calls to the archival sink among a list of calls. *)
Fixpoint written (l : list call) : list call :=
  match l with
  | [] => []
  | Factory_write_msg t ty m a f :: l' => Factory_write_msg t ty m a f :: written l'
  | _ :: l' => written l'
  end.

(** The address family that an Update is filed under, read off the decode
    result as a four-way choice: IPv4 when there are prefixes, else the pair
    of MP_REACH_NLRI, else that of MP_UNREACH_NLRI, else (0, 0). [None] when
    the attribute consulted carries no pair. *)
Definition classify (r : UpdateResult) : option (Z * Z) :=
  if truthy_list (u_nlri r) || truthy_list (u_withdraw r)
  then Some bgp_cons.AFI_SAFI_ipv4
  else match u_attr r !! bgp_cons.BGPTYPE_MP_REACH_NLRI with
       | Some (MpNlri a _) => Some a
       | Some (AttrOther _) => None
       | None =>
           match u_attr r !! bgp_cons.BGPTYPE_MP_UNREACH_NLRI with
           | Some (MpNlri a _) => Some a
           | Some (AttrOther _) => None
           | None => Some (0, 0)
           end
       end.

(** The two-way choice: IPv4 when there are prefixes, else (0, 0). *)
Definition classify_prefixes (r : UpdateResult) : Z * Z :=
  if truthy_list (u_nlri r) || truthy_list (u_withdraw r)
  then bgp_cons.AFI_SAFI_ipv4
  else (0, 0).

(** [steps R m]: the object that [m] leaves is related by [R] to the object
    that it found, however [m] ends. *)
Definition steps {A} (R : BGP -> BGP -> Prop) (m : M A) : Prop :=
  forall s, R s (m s).2.

(** [said P s s']: from [s] to [s'] the record of calls has only grown, by
    calls that satisfy [P]. *)
Definition said (P : call -> Prop) (s s' : BGP) : Prop :=
  exists l, calls s' = calls s ++ l /\ Forall P l.

(** The calls that the receiving side makes: none to the transport; to the
    sink, a record whose type code goes with what is archived (1 an Open,
    2 or 6 an Update, 3 a Notification, 4 nothing, for a KeepAlive, and
    only when KeepAlives are to be written), always flushed, and filed
    under (0, 0) unless it is an Update; to the channel, an Update, and
    never in standalone mode. *)
Definition receive_call (conf : Conf) (c : call) : Prop :=
  match c with
  | Transport_write _ => False
  | Channel_send_message m =>
      standalone conf = false /\ exists attr nlri withdraw, m = PUpdate attr nlri withdraw
  | Factory_write_msg _ ty m a f =>
      f = true /\
      match m with
      | POpen _ => ty = 1 /\ a = (0, 0)
      | PUpdate _ _ _ => ty = 2 \/ ty = 6
      | PNotification _ _ _ => ty = 3 /\ a = (0, 0)
      | PNone => ty = 4 /\ a = (0, 0) /\ write_keepalive conf = true
      end
  | _ => True
  end.

(** What receiving does not undo: the four-octet-AS flag once set, the
    counters of received messages, which only go up, the counters of sent
    messages, the configured capabilities, the expected peer AS and the
    flag [disconnected], which stay; the hold time, which only goes down;
    and the keepalive interval being a third of the hold time. *)
Record grows (s s' : BGP) : Prop := {
  grows_fourbytesas : fourbytesas s = true -> fourbytesas s' = true;
  grows_sent : msg_sent_stat s' = msg_sent_stat s;
  grows_local : local (capability s') = local (capability s);
  grows_peer_asn : peer_asn (fsm s') = peer_asn (fsm s);
  grows_disconnected : disconnected s' = disconnected s;
  grows_hold_time : hold_time (fsm s') <= hold_time (fsm s);
  grows_keep_alive_time :
    keep_alive_time (fsm s) = hold_time (fsm s) / 3 ->
    keep_alive_time (fsm s') = hold_time (fsm s') / 3;
  grows_Opens : (Opens (msg_recv_stat s) <= Opens (msg_recv_stat s'))%nat;
  grows_Notifications :
    (Notifications (msg_recv_stat s) <= Notifications (msg_recv_stat s'))%nat;
  grows_Updates : (Updates (msg_recv_stat s) <= Updates (msg_recv_stat s'))%nat;
  grows_Keepalives :
    (Keepalives (msg_recv_stat s) <= Keepalives (msg_recv_stat s'))%nat;
  grows_RouteRefresh :
    (RouteRefresh (msg_recv_stat s) <= RouteRefresh (msg_recv_stat s'))%nat
}.

(** The first key of [pending] that the dict [d] does not have. *)
Fixpoint first_missing {V} (d : dict V) (pending : list string) : option string :=
  match pending with
  | [] => None
  | k :: rest => if dict_mem k d then first_missing d rest else Some k
  end.

(** The type codes that [parse_buffer] dispatches on. *)
Definition known_type (ty : nat) : bool :=
  (ty =? bgp_cons.MSG_OPEN)%nat || (ty =? bgp_cons.MSG_UPDATE)%nat
  || (ty =? bgp_cons.MSG_NOTIFICATION)%nat || (ty =? bgp_cons.MSG_KEEPALIVE)%nat
  || (ty =? bgp_cons.MSG_ROUTEREFRESH)%nat || (ty =? bgp_cons.MSG_CISCOROUTEREFRESH)%nat.

(** * A codec and a session for the examples *)

Module demo.

Definition be16 (hi lo : byte) : Z :=
  Z.of_nat (256 * Byte.to_nat hi + Byte.to_nat lo).

(** Open bodies without optional parameters: version, AS, hold time,
    identifier, and a zero parameter length. *)
Definition demo_Open_parse (msg : bytes) : result OpenMsg :=
  match msg with
  | [v; a1; a0; h1; h0; i3; i2; i1; i0; x00] =>
      Ok {| version := Z.of_nat (Byte.to_nat v);
            asn := be16 a1 a0;
            open_hold_time := be16 h1 h0;
            bgp_id := 65536 * be16 i3 i2 + be16 i1 i0;
            capa_dict := [] |}
  | _ => Raise (MessageHeaderError bgp_cons.ERR_MSG_HDR_BAD_MSG_LEN)
  end.

(** Three Update bodies: the empty one; one that starts with a zero byte,
    decoded with a sub-error and an MP_REACH_NLRI attribute for IPv6
    unicast; any other, decoded without error with the same attribute. *)
Definition demo_Update_parse (t : Z) (four_bytes_as : bool) (msg : bytes)
  : result UpdateResult :=
  match msg with
  | [] => Ok {| u_time := t; u_sub_error := None; u_attr := ∅;
                u_nlri := []; u_withdraw := [] |}
  | x00 :: _ =>
      Ok {| u_time := t; u_sub_error := Some 1;
            u_attr := {[ bgp_cons.BGPTYPE_MP_REACH_NLRI := MpNlri (2, 1) [] ]};
            u_nlri := []; u_withdraw := [] |}
  | _ :: _ =>
      Ok {| u_time := t; u_sub_error := None;
            u_attr := {[ bgp_cons.BGPTYPE_MP_REACH_NLRI := MpNlri (2, 1) [] ]};
            u_nlri := []; u_withdraw := [] |}
  end.

Definition demo_Notification_parse (msg : bytes) : result (Z * Z * bytes) :=
  match msg with
  | e :: se :: data => Ok (Z.of_nat (Byte.to_nat e), Z.of_nat (Byte.to_nat se), data)
  | _ => Raise OtherException
  end.

Definition demo_KeepAlive_parse (msg : bytes) : result unit :=
  match msg with
  | [] => Ok tt
  | _ => Raise (MessageHeaderError bgp_cons.ERR_MSG_HDR_BAD_MSG_LEN)
  end.

Definition demo_RouteRefresh_parse (msg : bytes) : result (Z * Z * Z) :=
  match msg with
  | [a1; a0; res; safi] =>
      Ok (be16 a1 a0, Z.of_nat (Byte.to_nat res), Z.of_nat (Byte.to_nat safi))
  | _ => Raise OtherException
  end.

(** A message: marker, length, type code, body. *)
Definition message (ty : byte) (body : bytes) : result bytes :=
  match pack_H (19 + length body) with
  | Ok len => Ok (replicate 16 xff ++ len ++ [ty] ++ body)
  | Raise e => Raise e
  end.

Definition demo_Notification_construct (error sub_error : Z) (data : bytes)
  : result bytes :=
  match Byte.of_nat (Z.to_nat error), Byte.of_nat (Z.to_nat sub_error) with
  | Some e, Some se => message x03 (e :: se :: data)
  | _, _ => Raise StructError
  end.

(** The codec builds KeepAlive and Notification messages only. *)
Definition codec : Codec :=
  {| Open_parse := demo_Open_parse;
     Update_parse := demo_Update_parse;
     Notification_parse := demo_Notification_parse;
     KeepAlive_parse := demo_KeepAlive_parse;
     RouteRefresh_parse := demo_RouteRefresh_parse;
     Open_construct := fun _ _ _ _ _ => Raise OtherException;
     Update_construct := fun _ _ => Raise OtherException;
     Notification_construct := demo_Notification_construct;
     KeepAlive_construct := message x04 [];
     RouteRefresh_construct := fun _ _ _ _ => Raise OtherException |}.

Definition conf : Conf :=
  {| standalone := true; write_keepalive := true;
     my_asn := 65000; factory_bgp_id := 167772161 |}.

Definition clock (n : nat) : Z := 1000 + Z.of_nat n.

Definition fsm0 : FSM :=
  {| hold_time := 180; keep_alive_time := 60; peer_asn := 65001 |}.

Definition caps0 : Capability :=
  {| local := [("four_bytes_as"%string, CapBool true);
               ("route_refresh"%string, CapBool true)];
     remote := [] |}.

(** A session that has just been created. *)
Definition session : BGP := init fsm0 caps0.

Definition with_buffer (buf : bytes) : BGP := set_receive_buffer buf session.

(** A KeepAlive: 19 bytes. *)
Definition keepalive_msg : bytes := replicate 16 xff ++ [x00; x13; x04].

(** An Open of 29 bytes from AS 65001, hold time 90. *)
Definition open_msg : bytes :=
  replicate 16 xff ++ [x00; x1d; x01]
  ++ [x04; xfd; xe9; x00; x5a; x0a; x00; x00; x02; x00].

(** The same Open from AS 65002, which is not the expected one. *)
Definition open_msg_bad_as : bytes :=
  replicate 16 xff ++ [x00; x1d; x01]
  ++ [x04; xfd; xea; x00; x5a; x0a; x00; x00; x02; x00].

(** An Update whose body starts with a zero byte. *)
Definition update_msg : bytes := replicate 16 xff ++ [x00; x17; x02; x00; x00; x00; x00].

(** A header that declares 5 bytes, type KeepAlive. *)
Definition short_length_msg : bytes := replicate 16 xff ++ [x00; x05; x04].

(** The first five bytes of a header. *)
Definition five : bytes := [xff; xff; xff; xff; xff].

End demo.

(** * Properties *)

(** ** Bytes *)

Lemma bytes_eqb_eq (a b : bytes) : bytes_eqb a b = true <-> a = b.
Proof.
  revert b. induction a as [|x a IH]; intros [|y b]; simpl; split;
    try congruence; try done.
  - intros [Hxy Hab]%andb_prop. apply Byte.byte_dec_bl in Hxy.
    apply IH in Hab. by subst.
  - intros [= -> ->]. rewrite Byte.byte_dec_lb by done. simpl. by apply IH.
Qed.

Lemma bytes_eqb_neq (a b : bytes) : bytes_eqb a b = false <-> a <> b.
Proof.
  rewrite <- bytes_eqb_eq. destruct (bytes_eqb a b); split; congruence.
Qed.


Lemma slice_app {A} (lo hi : nat) (l l' : list A) :
  (hi <= length l)%nat -> slice lo hi (l ++ l') = slice lo hi l.
Proof. intros H. unfold slice. by rewrite take_app_le. Qed.

(** A slice sits in the list where its bounds say. *)
Lemma slice_split {A} (lo hi : nat) (l : list A) :
  (lo <= hi)%nat -> l = take lo l ++ slice lo hi l ++ drop hi l.
Proof.
  intros H. unfold slice.
  rewrite <- (take_drop hi l) at 1.
  rewrite <- (take_drop lo (take hi l)) at 1.
  rewrite take_take. replace (lo `min` hi)%nat with lo by lia.
  by rewrite <- app_assoc.
Qed.

(** ** The header *)

(** The 16-bit length that a buffer of at least 19 bytes declares. *)
Lemma unpack_16sHB_take (buf : bytes) :
  (19 <= length buf)%nat ->
  exists hi lo ty,
    drop 16 (take 19 buf) = [hi; lo; ty] /\
    unpack_16sHB (take 19 buf)
    = Ok (take 16 buf, (256 * Byte.to_nat hi + Byte.to_nat lo)%nat, Byte.to_nat ty).
Proof.
  intros H.
  assert (Hlen : length (drop 16 (take 19 buf)) = 3%nat)
    by (rewrite length_drop, length_take; lia).
  destruct (drop 16 (take 19 buf)) as [|hi [|lo [|ty [|? ?]]]] eqn:E; try done.
  exists hi, lo, ty. split; [done|].
  unfold unpack_16sHB. rewrite E.
  rewrite length_take. replace (19 `min` length buf)%nat with 19%nat by lia.
  simpl Nat.eqb. cbv iota. rewrite take_take. done.
Qed.

Lemma unpack_16sHB_bound (b m : bytes) (n ty : nat) :
  unpack_16sHB b = Ok (m, n, ty) -> (n < 256 * 256 /\ ty < 256)%nat.
Proof.
  unfold unpack_16sHB.
  destruct (drop 16 b) as [|hi [|lo [|t [|? ?]]]]; try done.
  destruct (length b =? 19)%nat; [|done].
  intros [= _ <- <-].
  pose proof (Byte.to_nat_bounded hi). pose proof (Byte.to_nat_bounded lo).
  pose proof (Byte.to_nat_bounded t). lia.
Qed.

Lemma of_nat_small (n : nat) :
  (n < 256)%nat -> exists b, Byte.of_nat n = Some b /\ Byte.to_nat b = n.
Proof.
  intros H. destruct (Byte.of_nat n) as [b|] eqn:E.
  - exists b. split; [done|]. by apply Byte.to_of_nat.
  - exfalso. apply Byte.of_nat_None_iff in E. lia.
Qed.

(** [struct.pack('!H', n)] of a 16-bit value returns its two bytes. *)
Lemma pack_H_ok (n : nat) :
  (n < 256 * 256)%nat ->
  exists hi lo, pack_H n = Ok [hi; lo] /\
                (256 * Byte.to_nat hi + Byte.to_nat lo = n)%nat.
Proof.
  intros H. unfold pack_H.
  destruct (of_nat_small (n / 256)) as (hi & -> & Hhi).
  { apply Nat.Div0.div_lt_upper_bound. lia. }
  destruct (of_nat_small (n mod 256)) as (lo & -> & Hlo).
  { apply Nat.mod_upper_bound. lia. }
  exists hi, lo. split; [done|]. rewrite Hhi, Hlo.
  pose proof (Nat.div_mod_eq n 256). lia.
Qed.


(** ** What a method leaves alone *)

Section Keeps.

Context {A B : Type} (P : call -> Prop).

Lemma keeps_ret (a : A) : keeps P (ret a).
Proof. intros s. simpl. repeat split. exists []. by rewrite app_nil_r. Qed.

Lemma keeps_raise (e : exn) : keeps P (@raise A e).
Proof. intros s. simpl. repeat split. exists []. by rewrite app_nil_r. Qed.

Lemma keeps_lift (r : result A) : keeps P (lift r).
Proof. intros s. simpl. repeat split. exists []. by rewrite app_nil_r. Qed.

Lemma keeps_get (f : BGP -> A) : keeps P (get f).
Proof. intros s. simpl. repeat split. exists []. by rewrite app_nil_r. Qed.

Lemma keeps_modify (f : BGP -> BGP) :
  (forall s, receive_buffer (f s) = receive_buffer s /\
             peer_asn (fsm (f s)) = peer_asn (fsm s) /\
             calls (f s) = calls s) ->
  keeps P (modify f).
Proof.
  intros H s. destruct (H s) as (Hb & Hp & Hc). simpl.
  repeat split; [done..|]. exists []. by rewrite app_nil_r.
Qed.

Lemma keeps_emit (c : call) : P c -> keeps P (emit c).
Proof.
  intros H s. simpl. repeat split. exists [c]. split; [done|]. by constructor.
Qed.

Lemma keeps_bind (m : M A) (k : A -> M B) :
  keeps P m -> (forall a, keeps P (k a)) -> keeps P (bind m k).
Proof.
  intros Hm Hk s. unfold bind. specialize (Hm s).
  destruct (m s) as [[a|e] s1]; simpl in *; [|done].
  destruct Hm as (Hb & Hp & l & Hc & Hl).
  destruct (Hk a s1) as (Hb' & Hp' & l' & Hc' & Hl').
  repeat split; [congruence..|].
  exists (l ++ l'). rewrite Hc', Hc, app_assoc. split; [done|].
  by apply Forall_app.
Qed.

Lemma keeps_try_except (m : M A) (h : exn -> M A) :
  keeps P m -> (forall e, keeps P (h e)) -> keeps P (try_except m h).
Proof.
  intros Hm Hh s. unfold try_except. specialize (Hm s).
  destruct (m s) as [[a|e] s1]; simpl in *; [done|].
  destruct Hm as (Hb & Hp & l & Hc & Hl).
  destruct (Hh e s1) as (Hb' & Hp' & l' & Hc' & Hl').
  repeat split; [congruence..|].
  exists (l ++ l'). rewrite Hc', Hc, app_assoc. split; [done|].
  by apply Forall_app.
Qed.

End Keeps.

Lemma keeps_time_time (P : call -> Prop) (clock : nat -> Z) :
  keeps P (time_time clock).
Proof. intros s. simpl. repeat split. exists []. by rewrite app_nil_r. Qed.

Create HintDb keeps.
#[local] Hint Resolve keeps_ret keeps_raise keeps_lift keeps_get keeps_time_time : keeps.

(** Break a method down to its calls, states and branches. *)
Ltac keeps_step :=
  match goal with
  | |- keeps _ (bind _ _) => apply keeps_bind; [|intros ?]
  | |- keeps _ (try_except _ _) => apply keeps_try_except; [|intros ?]
  | |- keeps _ (emit _) => apply keeps_emit
  | |- keeps _ (modify _) =>
      apply keeps_modify; intros ?; simpl;
      repeat match goal with |- context [if ?b then _ else _] => destruct b end;
      done
  | |- keeps _ (if ?b then _ else _) => destruct b
  | |- keeps _ (match ?x with _ => _ end) => destruct x
  | |- keeps _ _ => solve [auto with keeps]
  end.

Ltac keeps_tac := repeat keeps_step.

Section DispatchKeeps.

Variables (codec : Codec) (conf : Conf) (clock : nat -> Z).


Lemma parses_only_other (msg : bytes) (c : call) :
  (forall kind m, c <> Codec_parse kind m) -> parses_only msg c.
Proof. intros H kind m ->. by destruct (H kind m). Qed.

Lemma parses_only_parse (msg : bytes) (kind : msg_kind) :
  parses_only msg (Codec_parse kind msg).
Proof. by intros ? ? [= _ <-]. Qed.

Lemma keeps_parse {A} (msg : bytes) (kind : msg_kind) (r : result A) :
  keeps (parses_only msg) (parse kind msg r).
Proof. unfold parse. keeps_tac. apply parses_only_parse. Qed.

Lemma keeps_dispatch (t : Z) (msg_type : nat) (msg : bytes) :
  keeps (parses_only msg) (dispatch codec conf clock t msg_type msg).
Proof.
  unfold dispatch, open_received, update_received, notification_received,
    keepalive_received, route_refresh_received, negotiate_hold_time.
  keeps_tac; try apply keeps_parse; by apply parses_only_other.
Qed.

End DispatchKeeps.

(** ** How the [try] block is left *)

Ltac run_method :=
  unfold dispatch, open_received, update_received, notification_received,
    keepalive_received, route_refresh_received, negotiate_hold_time, parse,
    time_time, emit, modify, get, lift, raise, ret, try_except, bind;
  simpl.

Ltac split_branches :=
  repeat (match goal with
          | |- context [if ?b then _ else _] => destruct b eqn:?
          | |- context [match ?x with _ => _ end] => destruct x eqn:?
          end; simpl; try done).

Section Dispatch.

Variables (codec : Codec) (conf : Conf) (clock : nat -> Z).


(** Every Open that is dispatched counts as received, however its
    validation ends; when it is rejected nothing else of the object
    changes. *)
Lemma dispatch_open_rejected (t : Z) (msg : bytes) (s : BGP) :
  error_return codec s bgp_cons.MSG_OPEN msg = true ->
  exists c,
    dispatch codec conf clock t bgp_cons.MSG_OPEN msg s
    = (Ok ReturnFalse,
       set_calls (calls s ++ [Codec_parse KOpen msg; c])
         (set_msg_recv_stat (incr_Opens (msg_recv_stat s)) s)) /\
    ((exists sub, c = Fsm_header_error sub None) \/
     (exists sub, c = Fsm_open_message_error sub)).
Proof.
  unfold error_return. simpl. run_method.
  destruct (Open_parse codec msg) as [o|[]]; simpl; try done.
  - destruct (peer_asn (fsm s) =? asn o); simpl; [done|]. intros _.
    eexists. rewrite <- app_assoc. split; [done|]. right. by eexists.
  - intros _. eexists. rewrite <- app_assoc. split; [done|]. left. by eexists.
  - intros _. eexists. rewrite <- app_assoc. split; [done|]. right. by eexists.
Qed.

Lemma dispatch_keepalive_rejected (t : Z) (msg : bytes) (s : BGP) :
  error_return codec s bgp_cons.MSG_KEEPALIVE msg = true ->
  exists sub,
    dispatch codec conf clock t bgp_cons.MSG_KEEPALIVE msg s
    = (Ok ReturnFalse,
       set_calls (calls s ++ [Codec_parse KKeepAlive msg; Fsm_header_error sub None])
         (set_msg_recv_stat (incr_Keepalives (msg_recv_stat s)) s)).
Proof.
  unfold error_return. simpl. run_method.
  destruct (KeepAlive_parse codec msg) as [[]|[]]; simpl; try done.
  intros _. eexists. by rewrite <- app_assoc.
Qed.


Lemma only_then {A B} (f : B) (m : M A) (s : BGP) :
  only f (bind m (fun _ => ret f)) s.
Proof.
  unfold only, bind. destruct (m s) as [[a|e] s1]; simpl; [by left|].
  right. by eexists.
Qed.

Lemma only_bind {A B} (f : B) (m : M A) (k : A -> M B) (s : BGP) :
  (forall a s1, only f (k a) s1) -> only f (bind m k) s.
Proof.
  intros H. unfold only, bind. destruct (m s) as [[a|e] s1]; simpl.
  - apply H.
  - right. by eexists.
Qed.

Lemma only_caught {A} (f : A) (m : M A) (s : BGP) :
  only f m s -> (try_except m (fun _ => ret f) s).1 = Ok f.
Proof.
  unfold only, try_except. destruct (m s) as [[a|e] s1]; simpl.
  - by intros [H|[e H]].
  - done.
Qed.

Lemma dispatch_flow (t : Z) (msg_type : nat) (msg : bytes) (s : BGP) :
  (dispatch codec conf clock t msg_type msg s).1
  = Ok (if error_return codec s msg_type msg then ReturnFalse else FallThrough).
Proof.
  destruct (error_return codec s msg_type msg) eqn:E.
  - unfold error_return in E.
    destruct (msg_type =? bgp_cons.MSG_OPEN)%nat eqn:E1.
    { apply Nat.eqb_eq in E1. subst msg_type.
      destruct (dispatch_open_rejected t msg s) as (c & -> & _); [|done].
      unfold error_return. by rewrite Nat.eqb_refl. }
    destruct (msg_type =? bgp_cons.MSG_KEEPALIVE)%nat eqn:E4; [|done].
    apply Nat.eqb_eq in E4. subst msg_type.
    destruct (dispatch_keepalive_rejected t msg s) as (c & ->); [|done].
    unfold error_return. by rewrite Nat.eqb_refl.
  - unfold dispatch. apply only_caught.
    unfold error_return in E.
    destruct (msg_type =? bgp_cons.MSG_OPEN)%nat.
    { unfold only. run_method.
      destruct (Open_parse codec msg) as [o|[]]; simpl in *;
        try done; try (right; by eexists).
      destruct (peer_asn (fsm s) =? asn o); simpl in *; [|done].
      split_branches; by left. }
    destruct (msg_type =? bgp_cons.MSG_UPDATE)%nat; [apply only_then|].
    destruct (msg_type =? bgp_cons.MSG_NOTIFICATION)%nat.
    { apply only_bind. intros. apply only_then. }
    destruct (msg_type =? bgp_cons.MSG_KEEPALIVE)%nat.
    { unfold only. run_method.
      destruct (KeepAlive_parse codec msg) as [[]|[]]; simpl in *;
        try done; try (right; by eexists).
      split_branches; by left. }
    destruct (msg_type =? bgp_cons.MSG_ROUTEREFRESH)%nat.
    { apply only_bind. intros. apply only_then. }
    destruct (msg_type =? bgp_cons.MSG_CISCOROUTEREFRESH)%nat.
    { apply only_bind. intros. apply only_then. }
    apply only_bind. intros. apply only_then.
Qed.

End Dispatch.

(** ** One step of the frame reader *)


Lemma new_calls_app (s s' : BGP) (l : list call) :
  calls s' = calls s ++ l -> new_calls s s' = l.
Proof. intros H. unfold new_calls. by rewrite H, drop_app_length. Qed.

Lemma header_length (buf marker : bytes) (n ty : nat) :
  header buf = Ok (marker, n, ty) -> (19 <= length buf)%nat.
Proof.
  unfold header, unpack_16sHB, bgp_cons.HDR_LEN.
  destruct (drop 16 (take 19 buf)) as [|hi [|lo [|t [|? ?]]]]; try done.
  destruct (length (take 19 buf) =? 19)%nat eqn:E; [|done].
  intros _. apply Nat.eqb_eq in E. rewrite length_take in E. lia.
Qed.

Lemma header_app (buf data : bytes) :
  (19 <= length buf)%nat -> header (buf ++ data) = header buf.
Proof. intros H. unfold header, bgp_cons.HDR_LEN. by rewrite take_app_le. Qed.

Lemma header_exists (buf : bytes) :
  (19 <= length buf)%nat -> exists n ty, header buf = Ok (take 16 buf, n, ty).
Proof.
  intros H. destruct (unpack_16sHB_take buf H) as (hi & lo & ty & _ & E).
  by eexists _, _.
Qed.

Section Step.

Variables (codec : Codec) (conf : Conf) (clock : nat -> Z).

Abbreviation parse_buffer' := (parse_buffer codec conf clock).
Abbreviation dispatch' := (dispatch codec conf clock).
Abbreviation parse_message' := (parse_message codec conf clock).

(** Fewer than 19 bytes: wait. *)
Lemma parse_buffer_short (s : BGP) :
  (length (receive_buffer s) < 19)%nat -> parse_buffer' s = (Ok false, s).
Proof.
  intros H. unfold parse_buffer, bind, get, bgp_cons.HDR_LEN.
  apply Nat.ltb_lt in H. by rewrite H.
Qed.

(** A marker that is not sixteen 0xFF: reported, nothing else done. *)
Lemma parse_buffer_unsync (s : BGP) :
  (19 <= length (receive_buffer s))%nat ->
  take 16 (receive_buffer s) <> replicate 16 xff ->
  parse_buffer' s
  = (Ok false,
     set_calls (calls s ++ [Fsm_header_error bgp_cons.ERR_MSG_HDR_CONN_NOT_SYNC None]) s).
Proof.
  intros H Hm. unfold parse_buffer, bind, get, bgp_cons.HDR_LEN.
  apply Nat.ltb_ge in H. rewrite H.
  apply bytes_eqb_neq in Hm. by rewrite Hm.
Qed.

(** A synchronised header: the length is checked, a bad one reported with
    its two bytes, and in both cases the reader goes on to the message. *)
Lemma parse_buffer_header (s : BGP) (marker : bytes) (n ty : nat) :
  take 16 (receive_buffer s) = replicate 16 xff ->
  header (receive_buffer s) = Ok (marker, n, ty) ->
  exists data,
    pack_H n = Ok data /\
    parse_buffer' s
    = parse_message' (receive_buffer s) n ty
        (if bad_length n
         then set_calls (calls s ++ [Fsm_header_error bgp_cons.ERR_MSG_HDR_BAD_MSG_LEN
                                       (Some data)]) s
         else s).
Proof.
  intros Hm Hh. pose proof (header_length _ _ _ _ Hh) as H.
  destruct (pack_H_ok n) as (hi & lo & Hp & _).
  { unfold header in Hh. by apply unpack_16sHB_bound in Hh as [? _]. }
  exists [hi; lo]. split; [done|].
  unfold parse_buffer, bind, get, try_except, lift, ret, bgp_cons.HDR_LEN.
  apply Nat.ltb_ge in H. rewrite H.
  apply bytes_eqb_eq in Hm. rewrite Hm. cbn [negb].
  unfold header, bgp_cons.HDR_LEN in Hh. rewrite Hh.
  unfold bad_length, bgp_cons.HDR_LEN.
  destruct ((n <? 19)%nat || (bgp_cons.MAX_LEN <? n)%nat); [|done].
  by rewrite Hp.
Qed.

(** The message is not whole yet: wait. *)
Lemma parse_message_wait (buf : bytes) (n ty : nat) (s : BGP) :
  (length buf < n)%nat -> parse_message' buf n ty s = (Ok false, s).
Proof.
  intros H. unfold parse_message. apply Nat.ltb_lt in H. by rewrite H.
Qed.

(** The message is whole: one reading of the clock, one dispatch of the
    bytes from 19 up to the declared length, and unless the block
    returned, the buffer loses its first [n] bytes. *)
Lemma parse_message_whole (buf : bytes) (n ty : nat) (s : BGP) :
  (n <= length buf)%nat ->
  let s1 := set_ticks (S (ticks s)) s in
  let s2 := (dispatch' (clock (ticks s)) ty (slice 19 n buf) s1).2 in
  parse_message' buf n ty s
  = if error_return codec s ty (slice 19 n buf)
    then (Ok false, s2)
    else (Ok true, set_receive_buffer (drop n (receive_buffer s)) s2).
Proof.
  intros H s1 s2. unfold parse_message. apply Nat.ltb_ge in H. rewrite H.
  unfold bind at 1. unfold time_time at 1. fold s1.
  unfold bind at 1. fold (slice 19 n buf).
  pose proof (dispatch_flow codec conf clock (clock (ticks s)) ty
                (slice bgp_cons.HDR_LEN n buf) s1) as Hf.
  destruct (keeps_dispatch codec conf clock (clock (ticks s)) ty
              (slice bgp_cons.HDR_LEN n buf) s1) as (Hb & _).
  subst s2. unfold bgp_cons.HDR_LEN in *.
  destruct (dispatch' (clock (ticks s)) ty (slice 19 n buf) s1) as [r s2].
  simpl in *. subst r.
  replace (error_return codec s1 ty (slice 19 n buf))
    with (error_return codec s ty (slice 19 n buf)) by done.
  destruct (error_return codec s ty (slice 19 n buf)); [done|].
  unfold bind, modify, ret. by rewrite Hb.
Qed.

End Step.

(** ** The five ways of [parse_buffer] *)

Section Reads.

Variables (codec : Codec) (conf : Conf) (clock : nat -> Z).

Lemma parse_buffer_reads (s : BGP) :
  reads codec s (parse_buffer codec conf clock s).1 (parse_buffer codec conf clock s).2.
Proof.
  destruct (Nat.lt_ge_cases (length (receive_buffer s)) 19) as [Hlt|Hge].
  { rewrite parse_buffer_short by done. by apply reads_short. }
  destruct (bytes_eqb (take 16 (receive_buffer s)) (replicate 16 xff)) eqn:Hm;
    [apply bytes_eqb_eq in Hm | apply bytes_eqb_neq in Hm].
  2: { rewrite parse_buffer_unsync by done. by eapply reads_unsync. }
  destruct (header_exists _ Hge) as (n & ty & Hh).
  destruct (parse_buffer_header codec conf clock s _ n ty Hm Hh) as (data & Hp & ->).
  set (s0 := if bad_length n then _ else s).
  assert (Hb0 : receive_buffer s0 = receive_buffer s)
    by (subst s0; by destruct (bad_length n)).
  assert (Hc0 : calls s0 = calls s ++ length_report n data).
  { subst s0. unfold length_report. destruct (bad_length n); simpl; [done|].
    by rewrite app_nil_r. }
  assert (He0 : forall m, error_return codec s0 ty m = error_return codec s ty m)
    by (intros m; subst s0; by destruct (bad_length n)).
  destruct (Nat.lt_ge_cases (length (receive_buffer s)) n) as [Hw|Hw].
  { rewrite parse_message_wait by done. by eapply reads_wait. }
  rewrite parse_message_whole by done. rewrite He0.
  destruct (keeps_dispatch codec conf clock (clock (ticks s0)) ty
              (slice 19 n (receive_buffer s)) (set_ticks (S (ticks s0)) s0))
    as (Hb & _ & l & Hc & Hl).
  simpl in Hb, Hc. rewrite Hb0 in Hb. rewrite Hc0, <- app_assoc in Hc.
  destruct (error_return codec s ty (slice 19 n (receive_buffer s))) eqn:E; simpl.
  - by eapply reads_rejected.
  - eapply reads_consumed; try done. simpl. by rewrite Hb0.
Qed.

End Reads.

(** ** Hold time and keepalive interval *)

Lemma negotiate_hold_time_run (remote_hold : Z) (s : BGP) :
  let negotiated := Z.min (hold_time (fsm s)) remote_hold in
  negotiate_hold_time remote_hold s
  = (Ok tt,
     set_fsm {| hold_time := negotiated; keep_alive_time := negotiated / 3;
                peer_asn := peer_asn (fsm s) |}
       (set_calls
          (calls s ++
           if negb (negotiated =? 0) && (negotiated <? 3)
           then [Fsm_open_message_error bgp_cons.ERR_MSG_OPEN_UNACCPT_HOLD_TIME]
           else [])
          s)).
Proof.
  run_method.
  destruct (negb (Z.min (hold_time (fsm s)) remote_hold =? 0)
            && (Z.min (hold_time (fsm s)) remote_hold <? 3)); simpl; [done|].
  by rewrite app_nil_r.
Qed.

(** C3. For every local hold time and every hold time of the peer's Open,
    [negotiate_hold_time] returns, leaves min(local, remote) as the hold
    time of the session, and calls [fsm.open_message_error] with the
    unacceptable-hold-time sub-error exactly when that minimum is neither
    zero nor at least 3; otherwise it calls nothing. So 1 and 2 are
    rejected, 0 and everything from 3 on accepted. *)
Theorem negotiate_hold_time_min (remote_hold : Z) (s : BGP) :
  let negotiated := Z.min (hold_time (fsm s)) remote_hold in
  let s' := (negotiate_hold_time remote_hold s).2 in
  (negotiate_hold_time remote_hold s).1 = Ok tt /\
  hold_time (fsm s') = negotiated /\
  (new_calls s s' = [Fsm_open_message_error bgp_cons.ERR_MSG_OPEN_UNACCPT_HOLD_TIME]
   <-> negotiated <> 0 /\ negotiated < 3) /\
  (new_calls s s' = [] <-> negotiated = 0 \/ 3 <= negotiated) /\
  (Fsm_open_message_error bgp_cons.ERR_MSG_OPEN_UNACCPT_HOLD_TIME ∈ new_calls s s'
   <-> negotiated = 1 \/ negotiated = 2 \/ negotiated < 0).
Proof.
  intros negotiated s'. subst s'. rewrite negotiate_hold_time_run.
  fold negotiated. simpl. split; [done|]. split; [done|].
  erewrite new_calls_app by (simpl; reflexivity).
  destruct (negotiated =? 0) eqn:E0; [apply Z.eqb_eq in E0|apply Z.eqb_neq in E0];
    (destruct (negotiated <? 3) eqn:E3; [apply Z.ltb_lt in E3|apply Z.ltb_ge in E3]);
    simpl; rewrite ?list_elem_of_singleton, ?elem_of_nil;
    repeat split; intros; try done; try lia.
Qed.


(** ** The counters *)

(** [send_keepalive] counts once. *)
Lemma send_keepalive_counts_once (codec : Codec) (s : BGP) :
  Keepalives (msg_sent_stat (send_keepalive codec s).2)
  = S (Keepalives (msg_sent_stat s)).
Proof.
  unfold send_keepalive, transport_write. run_method.
  by destruct (KeepAlive_construct codec).
Qed.

(** C6, on the code. [send_notification] adds two to the counter of sent
    Notifications, not one; and a RouteRefresh message that is received,
    under either type code, leaves the counter of received RouteRefresh
    (and every other counter of received messages) where it was. *)
Theorem send_notification_counts_twice
    (codec : Codec) (conf : Conf) (clock : nat -> Z)
    (error sub_error : Z) (data : bytes) (t : Z) (msg : bytes) (s : BGP) :
  Notifications (msg_sent_stat (send_notification codec error sub_error data s).2)
  = S (S (Notifications (msg_sent_stat s))) /\
  msg_recv_stat (dispatch codec conf clock t bgp_cons.MSG_ROUTEREFRESH msg s).2
  = msg_recv_stat s /\
  msg_recv_stat (dispatch codec conf clock t bgp_cons.MSG_CISCOROUTEREFRESH msg s).2
  = msg_recv_stat s.
Proof.
  split; [|split].
  - unfold send_notification, transport_write. run_method.
    by destruct (Notification_construct codec error sub_error data).
  - run_method. by destruct (RouteRefresh_parse codec msg).
  - run_method. by destruct (RouteRefresh_parse codec msg).
Qed.

(** ** Capability negotiation *)

Lemma dict_mem_keys {V} (k : string) (d : dict V) :
  dict_mem k d = true <-> k ∈ dict_keys d.
Proof.
  unfold dict_mem. rewrite existsb_exists. split.
  - intros (x & Hx & E). apply String.eqb_eq in E. subst x.
    by apply list_elem_of_In.
  - intros H. exists k. split; [by apply list_elem_of_In|apply String.eqb_refl].
Qed.

Lemma dict_pop_keys {V} (k k' : string) (d : dict V) :
  k' ∈ dict_keys (dict_pop k d) <-> k' ∈ dict_keys d /\ k' <> k.
Proof.
  unfold dict_keys, dict_pop. rewrite !list_elem_of_fmap. split.
  - intros (kv & -> & [Hn Hin]%list_elem_of_filter). split; [by exists kv|].
    intros E. by rewrite E, String.eqb_refl in Hn.
  - intros [(kv & -> & Hin) Hne]. exists kv. split; [done|].
    apply list_elem_of_filter. split; [|done].
    destruct (String.eqb k kv.1) eqn:E; [|done].
    apply String.eqb_eq in E. by subst k.
Qed.

Lemma dict_pop_shorter {V} (k : string) (d : dict V) :
  k ∈ dict_keys d -> (length (dict_pop k d) < length d)%nat.
Proof.
  unfold dict_keys. intros (kv & -> & Hin)%list_elem_of_fmap.
  unfold dict_pop. apply (length_filter_lt _ _ kv); [done|].
  rewrite String.eqb_refl. simpl. tauto.
Qed.

(** What the loop does whatever way it ends: the remote dict is not
    touched, no key is added to the local one, and no key that the remote
    dict has is removed from it. *)
Lemma capability_loop_keys (used : nat) (pending : list string) (s : BGP) :
  let s' := (capability_loop used pending s).2 in
  remote (capability s') = remote (capability s) /\
  (forall k, k ∈ dict_keys (local (capability s')) ->
             k ∈ dict_keys (local (capability s))) /\
  (forall k, k ∈ dict_keys (local (capability s)) ->
             k ∈ dict_keys (remote (capability s)) ->
             k ∈ dict_keys (local (capability s'))).
Proof.
  revert s. induction pending as [|c rest IH]; intros s; simpl.
  - by destruct (negb _).
  - destruct (negb (length (local (capability s)) =? used)%nat); [done|].
    destruct (dict_mem c (remote (capability s))) eqn:E; simpl; [apply IH|].
    specialize (IH (set_capability
                      (set_local (dict_pop c (local (capability s))) (capability s)) s)).
    simpl in IH. destruct IH as (Hr & Hsub & Hkeep).
    split; [done|]. split.
    + intros k Hk. apply Hsub in Hk. by apply dict_pop_keys in Hk as [? _].
    + intros k Hk Hrem. apply Hkeep; [|done]. apply dict_pop_keys. split; [done|].
      intros ->. apply dict_mem_keys in Hrem. congruence.
Qed.

(** Once the dict has changed size, the iterator raises. *)
Lemma capability_loop_changed (used : nat) (pending : list string) (s : BGP) :
  length (local (capability s)) <> used ->
  capability_loop used pending s = (Raise RuntimeError, s).
Proof.
  intros H. apply Nat.eqb_neq in H. destruct pending; simpl; by rewrite H.
Qed.

(** The loop ends without raising only when it had nothing to remove. *)
Lemma capability_loop_ok (pending : list string) (s : BGP) :
  (forall k, k ∈ pending -> k ∈ dict_keys (local (capability s))) ->
  (capability_loop (length (local (capability s))) pending s).1 = Ok tt ->
  forall k, k ∈ pending -> k ∈ dict_keys (remote (capability s)).
Proof.
  induction pending as [|c rest IH]; intros Hin Hok k Hk.
  - by apply elem_of_nil in Hk.
  - simpl in Hok. rewrite Nat.eqb_refl in Hok. simpl in Hok.
    destruct (dict_mem c (remote (capability s))) eqn:E; simpl in Hok.
    + apply elem_of_cons in Hk as [->|Hk]; [by apply dict_mem_keys|].
      apply IH; [|done..]. intros k' Hk'. apply Hin. by right.
    + rewrite capability_loop_changed in Hok; [done|]. simpl.
      pose proof (dict_pop_shorter c (local (capability s))
                    (Hin c ltac:(by left))). lia.
Qed.

(** C2, as the code has it. After [capability_negotiate] the remote dict
    is as it was; every key of the local dict was a key of the configured
    local dict, so no key is ever added; every configured key that the
    peer advertised is still there; with an empty remote dict the local
    dict is not touched at all; and whenever the remote dict is not empty
    and the method returns, every key of the local dict is a key of the
    remote dict. *)
Theorem capability_negotiate_subset (s : BGP) :
  let s' := (capability_negotiate s).2 in
  remote (capability s') = remote (capability s) /\
  dict_keys (local (capability s')) ⊆ dict_keys (local (capability s)) /\
  (forall k, k ∈ dict_keys (local (capability s)) ->
             k ∈ dict_keys (remote (capability s)) ->
             k ∈ dict_keys (local (capability s'))) /\
  (remote (capability s) = [] -> capability_negotiate s = (Ok tt, s)) /\
  (remote (capability s) <> [] ->
   (capability_negotiate s).1 = Ok tt ->
   dict_keys (local (capability s')) ⊆ dict_keys (remote (capability s))).
Proof.
  unfold capability_negotiate.
  destruct (remote (capability s)) as [|kv rem] eqn:Er; simpl.
  - repeat split; try done.
  - pose proof (capability_loop_keys (length (local (capability s)))
                  (dict_keys (local (capability s))) s) as (Hr & Hsub & Hkeep).
    rewrite Er in Hr, Hkeep.
    split; [done|]. split; [done|]. split; [done|]. split; [done|].
    intros _ Hok k Hk. apply Hsub in Hk.
    pose proof (capability_loop_ok (dict_keys (local (capability s))) s
                  ltac:(done) Hok k Hk) as H.
    by rewrite Er in H.
Qed.

(** C2 as stated fails: with nothing advertised by the peer, the local dict
    keeps its keys, and they are not keys of the (empty) remote dict. *)
Lemma capability_negotiate_not_subset_remote :
  let s := demo.session in
  let s' := (capability_negotiate s).2 in
  ~ (dict_keys (local (capability s')) ⊆ dict_keys (remote (capability s))).
Proof.
  simpl. intros H. specialize (H "four_bytes_as"%string ltac:(by left)).
  by apply elem_of_nil in H.
Qed.

Lemma capability_negotiate_subset_witness :
  let s := set_capability
             (set_remote [("route_refresh"%string, CapBool true)]
                {| local := [("route_refresh"%string, CapBool true)]; remote := [] |})
             demo.session in
  remote (capability s) <> [] /\
  (capability_negotiate s).1 = Ok tt /\
  dict_keys (local (capability (capability_negotiate s).2))
  ⊆ dict_keys (remote (capability s)).
Proof.
  intros s.
  assert (H1 : remote (capability s) <> []) by done.
  assert (H2 : (capability_negotiate s).1 = Ok tt) by reflexivity.
  split; [exact H1|]. split; [exact H2|].
  exact (proj2 (proj2 (proj2 (proj2 (capability_negotiate_subset s)))) H1 H2).
Defined.

(** With two configured keys that the peer did not advertise, the first one
    is removed and the iterator raises: the second one stays. *)
Example capability_negotiate_two_missing :
  let s := set_capability (set_remote [("add_path"%string, CapInt 1)] demo.caps0)
             demo.session in
  (capability_negotiate s).1 = Raise RuntimeError /\
  dict_keys (local (capability (capability_negotiate s).2)) = ["route_refresh"%string].
Proof. split; reflexivity. Qed.

(** ** Updates *)

Section Update.

Variables (codec : Codec) (conf : Conf).

(** An Update decoded with a sub-error: filed under type 6, by its
    prefixes alone. *)
Lemma update_received_sub_error (t : Z) (msg : bytes) (s : BGP) (r : UpdateResult) :
  Update_parse codec t (fourbytesas s) msg = Ok r ->
  truthy_sub_error (u_sub_error r) = true ->
  update_received codec conf t msg s
  = (Ok tt,
     set_calls
       (calls s ++
        [Codec_parse KUpdate msg;
         Factory_write_msg (u_time r) 6
           (PUpdate (u_attr r) (u_nlri r) (u_withdraw r)) (classify_prefixes r) true;
         Fsm_update_received])
       (set_msg_recv_stat (incr_Updates (msg_recv_stat s)) s)).
Proof.
  intros Hr Hs. run_method. rewrite Hr. simpl. rewrite Hs. simpl.
  by rewrite <- !app_assoc.
Qed.

(** An Update decoded without sub-error: filed under type 2, by the
    four-way choice, and published unless standalone. *)
Lemma update_received_clean (t : Z) (msg : bytes) (s : BGP) (r : UpdateResult)
    (a : Z * Z) :
  Update_parse codec t (fourbytesas s) msg = Ok r ->
  truthy_sub_error (u_sub_error r) = false ->
  classify r = Some a ->
  update_received codec conf t msg s
  = (Ok tt,
     set_calls
       (calls s ++
        [Codec_parse KUpdate msg;
         Factory_write_msg (u_time r) 2
           (PUpdate (u_attr r) (u_nlri r) (u_withdraw r)) a true]
        ++ (if standalone conf then []
            else [Channel_send_message (PUpdate (u_attr r) (u_nlri r) (u_withdraw r))])
        ++ [Fsm_update_received])
       (set_msg_recv_stat (incr_Updates (msg_recv_stat s)) s)).
Proof.
  intros Hr Hs Hc. run_method. rewrite Hr. simpl. rewrite Hs. simpl.
  unfold classify in Hc.
  destruct (truthy_list (u_nlri r) || truthy_list (u_withdraw r)); simpl.
  - injection Hc as <-. destruct (standalone conf); simpl; by rewrite <- !app_assoc.
  - destruct (u_attr r !! bgp_cons.BGPTYPE_MP_REACH_NLRI) as [[a1 n1|raw]|]; simpl.
    + injection Hc as <-. destruct (standalone conf); simpl; by rewrite <- !app_assoc.
    + done.
    + destruct (u_attr r !! bgp_cons.BGPTYPE_MP_UNREACH_NLRI) as [[a1 n1|raw]|]; simpl.
      * injection Hc as <-. destruct (standalone conf); simpl; by rewrite <- !app_assoc.
      * done.
      * injection Hc as <-. destruct (standalone conf); simpl; by rewrite <- !app_assoc.
Qed.

End Update.

(** C7, as the code has it. For every Update that decodes to a result, the
    handler returns, counts the Update and calls [write_msg] once with the
    decoded attributes and prefixes. Without sub-error the address family
    is the four-way choice (IPv4, else MP_REACH_NLRI, else
    MP_UNREACH_NLRI, else (0, 0)); with a populated sub-error the sink is
    still called with the partial result, but the address family is IPv4
    when there are prefixes and (0, 0) otherwise, whatever multiprotocol
    attributes were decoded. *)
Theorem update_received_classification
    (codec : Codec) (conf : Conf) (t : Z) (msg : bytes) (s : BGP)
    (r : UpdateResult) (a : Z * Z) :
  Update_parse codec t (fourbytesas s) msg = Ok r ->
  classify r = Some a ->
  let s' := (update_received codec conf t msg s).2 in
  let filed := if truthy_sub_error (u_sub_error r) then classify_prefixes r else a in
  let type := if truthy_sub_error (u_sub_error r) then 6 else 2 in
  (update_received codec conf t msg s).1 = Ok tt /\
  Updates (msg_recv_stat s') = S (Updates (msg_recv_stat s)) /\
  written (new_calls s s')
  = [Factory_write_msg (u_time r) type
       (PUpdate (u_attr r) (u_nlri r) (u_withdraw r)) filed true].
Proof.
  intros Hr Hc s' filed type. subst s' filed type.
  destruct (truthy_sub_error (u_sub_error r)) eqn:Hs.
  - rewrite (update_received_sub_error codec conf t msg s r Hr Hs). simpl.
    erewrite new_calls_app by (simpl; reflexivity). done.
  - rewrite (update_received_clean codec conf t msg s r a Hr Hs Hc). simpl.
    erewrite new_calls_app by (simpl; reflexivity).
    by destruct (standalone conf).
Qed.

(** C7 as stated fails: an Update decoded with a sub-error, no prefixes and
    an MP_REACH_NLRI attribute for (2, 1) is filed under (0, 0); no call to
    the sink carries (2, 1). *)
Lemma update_received_sub_error_unclassified :
  let s := demo.session in
  let msg := [x00] in
  exists r,
    Update_parse demo.codec 0 (fourbytesas s) msg = Ok r /\
    truthy_sub_error (u_sub_error r) = true /\
    classify r = Some (2, 1) /\
    ~ exists t ty m f,
        Factory_write_msg t ty m (2, 1) f
        ∈ calls (update_received demo.codec demo.conf 0 msg s).2.
Proof.
  intros s msg. eexists. split; [reflexivity|]. split; [reflexivity|].
  split; [reflexivity|].
  erewrite update_received_sub_error by reflexivity. simpl.
  intros (t & ty & m & f & H).
  repeat (apply elem_of_cons in H as [H|H]; [discriminate H|]).
  by apply elem_of_nil in H.
Qed.

Lemma update_received_classification_witness :
  let s := demo.session in
  let msg := [x01] in
  exists r,
    Update_parse demo.codec 0 (fourbytesas s) msg = Ok r /\
    classify r = Some (2, 1) /\
    written (new_calls s (update_received demo.codec demo.conf 0 msg s).2)
    = [Factory_write_msg (u_time r) 2
         (PUpdate (u_attr r) (u_nlri r) (u_withdraw r)) (2, 1) true].
Proof.
  intros s msg.
  exists {| u_time := 0; u_sub_error := None;
            u_attr := {[ bgp_cons.BGPTYPE_MP_REACH_NLRI := MpNlri (2, 1) [] ]};
            u_nlri := []; u_withdraw := [] |}.
  split; [reflexivity|]. split; [reflexivity|].
  exact (proj2 (proj2 (update_received_classification demo.codec demo.conf 0 msg s _
                         (2, 1) eq_refl eq_refl))).
Defined.

(** ** Whole messages only *)



Section Whole.

Variables (codec : Codec) (conf : Conf) (clock : nat -> Z).


(** One call of [parse_buffer] that returns [True]: what is left. *)
Lemma reads_true (s s' : BGP) :
  reads codec s (Ok true) s' ->
  exists marker n ty,
    header (receive_buffer s) = Ok (marker, n, ty) /\
    (n <= length (receive_buffer s))%nat /\
    receive_buffer s' = drop n (receive_buffer s).
Proof. inversion 1; subst. by eexists _, _, _. Qed.

(** One call of [parse_buffer] that does not return [True]: nothing is
    taken from the buffer. *)
Lemma reads_not_true (s s' : BGP) (r : result bool) :
  reads codec s r s' -> r <> Ok true -> receive_buffer s' = receive_buffer s.
Proof. by inversion 1; subst. Qed.


Lemma reads_returns (s s' : BGP) (r : result bool) :
  reads codec s r s' -> exists b, r = Ok b.
Proof. inversion 1; by eexists. Qed.

End Whole.



Section Drain.

Variables (codec : Codec) (conf : Conf) (clock : nat -> Z).


Lemma reads_consumed_inv (s s' : BGP) (r : result bool) (marker : bytes) (n ty : nat) :
  reads codec s r s' ->
  take 16 (receive_buffer s) = replicate 16 xff ->
  header (receive_buffer s) = Ok (marker, n, ty) ->
  (n <= length (receive_buffer s))%nat ->
  error_return codec s ty (slice 19 n (receive_buffer s)) = false ->
  r = Ok true /\ receive_buffer s' = drop n (receive_buffer s).
Proof.
  intros H Hm Hh Hn He. pose proof (header_length _ _ _ _ Hh).
  inversion H; subst; try lia; try done;
    match goal with
    | H1 : header _ = Ok _ |- _ => rewrite Hh in H1; injection H1 as <- <- <-
    end; try lia; try congruence; done.
Qed.

(** After a synchronised header, the record of calls starts with the
    report of its length, if bad. *)
Lemma reads_calls_header (s s' : BGP) (r : result bool)
    (marker data : bytes) (n ty : nat) :
  reads codec s r s' ->
  take 16 (receive_buffer s) = replicate 16 xff ->
  header (receive_buffer s) = Ok (marker, n, ty) ->
  pack_H n = Ok data ->
  exists l, calls s' = calls s ++ length_report n data ++ l.
Proof.
  intros H Hm Hh Hp. pose proof (header_length _ _ _ _ Hh).
  inversion H; subst; try lia; try done;
    repeat match goal with
           | H1 : header _ = Ok _ |- _ => rewrite Hh in H1; injection H1 as <- <- <-
           | H1 : pack_H _ = Ok _ |- _ => rewrite Hp in H1; injection H1 as <-
           end; try by eexists.
  exists []. by rewrite app_nil_r.
Qed.

End Drain.



(** ** Waiting for more bytes *)

Section Wait.

Variables (codec : Codec) (conf : Conf) (clock : nat -> Z).

(** A header with a length in 19..4096 and fewer bytes than it declares:
    nothing happens. *)
Lemma parse_buffer_incomplete (s : BGP) (marker : bytes) (n ty : nat) :
  take 16 (receive_buffer s) = replicate 16 xff ->
  header (receive_buffer s) = Ok (marker, n, ty) ->
  (19 <= n <= 4096)%nat ->
  (length (receive_buffer s) < n)%nat ->
  parse_buffer codec conf clock s = (Ok false, s).
Proof.
  intros Hm Hh Hn Hlt.
  destruct (parse_buffer_header codec conf clock s _ _ _ Hm Hh) as (data & _ & ->).
  assert (bad_length n = false) as ->.
  { unfold bad_length, bgp_cons.HDR_LEN, bgp_cons.MAX_LEN.
    apply orb_false_intro; apply Nat.ltb_ge; lia. }
  by apply parse_message_wait.
Qed.

(** One whole message of a length in 19..4096 at the front of the buffer:
    it is dispatched once, and the buffer loses it unless the [try] block
    returned. *)
Lemma parse_buffer_one (s : BGP) (msg rest marker : bytes) (ty : nat) :
  receive_buffer s = msg ++ rest ->
  take 16 msg = replicate 16 xff ->
  header msg = Ok (marker, length msg, ty) ->
  (length msg <= 4096)%nat ->
  let dispatched :=
    (dispatch codec conf clock (clock (ticks s)) ty (drop 19 msg)
       (set_ticks (S (ticks s)) s)).2 in
  parse_buffer codec conf clock s
  = if error_return codec s ty (drop 19 msg)
    then (Ok false, dispatched)
    else (Ok true, set_receive_buffer rest dispatched).
Proof.
  intros Hb Hm Hh Hn. pose proof (header_length _ _ _ _ Hh) as H19.
  assert (Hm' : take 16 (receive_buffer s) = replicate 16 xff)
    by (rewrite Hb, take_app_le by lia; done).
  assert (Hh' : header (receive_buffer s) = Ok (marker, length msg, ty))
    by (rewrite Hb, header_app by done; done).
  destruct (parse_buffer_header codec conf clock s _ _ _ Hm' Hh') as (data & _ & ->).
  assert (bad_length (length msg) = false) as ->.
  { unfold bad_length, bgp_cons.HDR_LEN, bgp_cons.MAX_LEN.
    apply orb_false_intro; apply Nat.ltb_ge; lia. }
  rewrite parse_message_whole by (rewrite Hb, length_app; lia).
  assert (slice 19 (length msg) (receive_buffer s) = drop 19 msg) as ->.
  { unfold slice. by rewrite Hb, take_app_length. }
  by rewrite Hb, drop_app_length.
Qed.

End Wait.

(** C5, as the code has it. With fewer than 19 bytes buffered, or with a
    synchronised header that declares a length in 19..4096 and fewer bytes
    buffered than that, [parse_buffer] returns [False] and leaves the whole
    object, the receive buffer included, as it was. And when a read on an
    empty buffer delivers one whole message of a length in 19..4096
    followed by 5 more bytes, [dataReceived] ends with that one message
    dispatched once and only its body handed to a codec; the buffer then
    holds exactly the 5 bytes, unless the message is an Open or a KeepAlive
    that the [try] block returns on, which stays in the buffer in front of
    the 5 bytes. *)
Theorem parse_buffer_waits (codec : Codec) (conf : Conf) (clock : nat -> Z) (s : BGP) :
  ((length (receive_buffer s) < 19)%nat ->
   parse_buffer codec conf clock s = (Ok false, s)) /\
  (forall marker n ty,
     take 16 (receive_buffer s) = replicate 16 xff ->
     header (receive_buffer s) = Ok (marker, n, ty) ->
     (19 <= n <= 4096)%nat ->
     (length (receive_buffer s) < n)%nat ->
     parse_buffer codec conf clock s = (Ok false, s)) /\
  (forall msg extra marker ty fuel,
     receive_buffer s = [] ->
     take 16 msg = replicate 16 xff ->
     header msg = Ok (marker, length msg, ty) ->
     (length msg <= 4096)%nat ->
     length extra = 5%nat ->
     let dispatched :=
       (dispatch codec conf clock (clock (ticks s)) ty (drop 19 msg)
          (set_ticks (S (ticks s)) (set_receive_buffer (msg ++ extra) s))).2 in
     let s' := if error_return codec s ty (drop 19 msg)
               then dispatched
               else set_receive_buffer extra dispatched in
     dataReceived codec conf clock (S (S fuel)) (msg ++ extra) s = Some (Ok tt, s') /\
     receive_buffer s'
     = (if error_return codec s ty (drop 19 msg) then msg ++ extra else extra) /\
     Forall (parses_only (drop 19 msg)) (new_calls s s')).
Proof.
  split; [apply parse_buffer_short|]. split; [apply parse_buffer_incomplete|].
  intros msg extra marker ty fuel Hb Hm Hh Hn H5 dispatched s'.
  destruct (keeps_dispatch codec conf clock (clock (ticks s)) ty (drop 19 msg)
              (set_ticks (S (ticks s)) (set_receive_buffer (msg ++ extra) s)))
    as (Hbd & _ & l & Hc & Hl).
  fold dispatched in Hbd, Hc. simpl in Hbd, Hc.
  split; [|split].
  - unfold dataReceived. rewrite Hb. simpl app. cbn [drain].
    rewrite (parse_buffer_one codec conf clock _ msg extra marker ty) by done.
    cbn zeta. fold dispatched. subst s'.
    replace (error_return codec (set_receive_buffer (msg ++ extra) s) ty (drop 19 msg))
      with (error_return codec s ty (drop 19 msg)) by done.
    destruct (error_return codec s ty (drop 19 msg)); [done|].
    cbn [drain]. rewrite parse_buffer_short by (simpl; lia). done.
  - subst s'. by destruct (error_return codec s ty (drop 19 msg)).
  - subst s'. erewrite new_calls_app; [exact Hl|].
    by destruct (error_return codec s ty (drop 19 msg)).
Qed.

Lemma parse_buffer_waits_witness :
  let s := demo.session in
  exists s',
    dataReceived demo.codec demo.conf demo.clock 2 (demo.keepalive_msg ++ demo.five) s
    = Some (Ok tt, s') /\
    receive_buffer s' = demo.five.
Proof.
  intros s.
  destruct (proj2 (proj2 (parse_buffer_waits demo.codec demo.conf demo.clock s))
              demo.keepalive_msg demo.five (replicate 16 xff) 4%nat 0%nat
              eq_refl eq_refl eq_refl ltac:(simpl; lia) eq_refl)
    as (Hd & Hb & _).
  eexists. split; [exact Hd|exact Hb].
Defined.

(** C5 as stated fails on a whole Open from an AS that is not the expected
    one, followed by 5 bytes: the Open is dispatched and rejected, and all
    34 bytes stay in the buffer, not the 5 alone. *)
Lemma dataReceived_rejected_open_stays :
  exists s',
    dataReceived demo.codec demo.conf demo.clock 2
      (demo.open_msg_bad_as ++ demo.five) demo.session
    = Some (Ok tt, s') /\
    receive_buffer s' = demo.open_msg_bad_as ++ demo.five /\
    receive_buffer s' <> demo.five.
Proof. eexists. split; [reflexivity|]. split; [reflexivity|]. discriminate. Qed.

(** ** Bad lengths, bad markers, rejected messages *)

Section Errors.

Variables (codec : Codec) (conf : Conf) (clock : nat -> Z).

Lemma bad_length_outside (n : nat) :
  bad_length n = true <-> (n < 19 \/ 4096 < n)%nat.
Proof.
  unfold bad_length, bgp_cons.HDR_LEN, bgp_cons.MAX_LEN.
  rewrite orb_true_iff, !Nat.ltb_lt. done.
Qed.

(** An Open that is rejected: counted, reported, and left in the buffer;
    the FSM fields are as they were. *)
Lemma parse_buffer_open_rejected (s : BGP) (marker : bytes) (n : nat) :
  take 16 (receive_buffer s) = replicate 16 xff ->
  header (receive_buffer s) = Ok (marker, n, bgp_cons.MSG_OPEN) ->
  (n <= length (receive_buffer s))%nat ->
  error_return codec s bgp_cons.MSG_OPEN (slice 19 n (receive_buffer s)) = true ->
  exists s1 l c,
    parse_buffer codec conf clock s = (Ok false, s1) /\
    receive_buffer s1 = receive_buffer s /\
    fsm s1 = fsm s /\
    msg_recv_stat s1 = incr_Opens (msg_recv_stat s) /\
    calls s1 = calls s ++ l ++ [Codec_parse KOpen (slice 19 n (receive_buffer s)); c] /\
    ((exists sub, c = Fsm_header_error sub None) \/
     (exists sub, c = Fsm_open_message_error sub)).
Proof.
  intros Hm Hh Hn He.
  destruct (parse_buffer_header codec conf clock s _ _ _ Hm Hh) as (data & _ & ->).
  rewrite parse_message_whole by done.
  set (s0 := if bad_length n then _ else s).
  assert (H0 : receive_buffer s0 = receive_buffer s /\ fsm s0 = fsm s /\
               msg_recv_stat s0 = msg_recv_stat s /\
               calls s0 = calls s ++ length_report n data).
  { subst s0. unfold length_report. destruct (bad_length n); simpl; [done|].
    by rewrite app_nil_r. }
  destruct H0 as (Hb0 & Hf0 & Hr0 & Hc0).
  assert (He0 : error_return codec s0 bgp_cons.MSG_OPEN (slice 19 n (receive_buffer s)) = true).
  { unfold error_return in *. simpl in *. by rewrite Hf0. }
  rewrite He0.
  destruct (dispatch_open_rejected codec conf clock (clock (ticks s0))
              (slice 19 n (receive_buffer s)) (set_ticks (S (ticks s0)) s0))
    as (c & -> & Hc).
  { unfold error_return in *. simpl in *. by rewrite Hf0. }
  eexists _, (length_report n data), c. split; [reflexivity|]. simpl.
  rewrite Hb0, Hf0, Hr0, Hc0, <- app_assoc. done.
Qed.

(** A KeepAlive that is rejected: the same. *)
Lemma parse_buffer_keepalive_rejected (s : BGP) (marker : bytes) (n : nat) :
  take 16 (receive_buffer s) = replicate 16 xff ->
  header (receive_buffer s) = Ok (marker, n, bgp_cons.MSG_KEEPALIVE) ->
  (n <= length (receive_buffer s))%nat ->
  error_return codec s bgp_cons.MSG_KEEPALIVE (slice 19 n (receive_buffer s)) = true ->
  exists s1 l sub,
    parse_buffer codec conf clock s = (Ok false, s1) /\
    receive_buffer s1 = receive_buffer s /\
    fsm s1 = fsm s /\
    msg_recv_stat s1 = incr_Keepalives (msg_recv_stat s) /\
    calls s1 = calls s ++ l ++ [Codec_parse KKeepAlive (slice 19 n (receive_buffer s));
                                Fsm_header_error sub None].
Proof.
  intros Hm Hh Hn He.
  destruct (parse_buffer_header codec conf clock s _ _ _ Hm Hh) as (data & _ & ->).
  rewrite parse_message_whole by done.
  set (s0 := if bad_length n then _ else s).
  assert (H0 : receive_buffer s0 = receive_buffer s /\ fsm s0 = fsm s /\
               msg_recv_stat s0 = msg_recv_stat s /\
               calls s0 = calls s ++ length_report n data).
  { subst s0. unfold length_report. destruct (bad_length n); simpl; [done|].
    by rewrite app_nil_r. }
  destruct H0 as (Hb0 & Hf0 & Hr0 & Hc0).
  assert (He0 : error_return codec s0 bgp_cons.MSG_KEEPALIVE
                  (slice 19 n (receive_buffer s)) = true) by done.
  rewrite He0.
  destruct (dispatch_keepalive_rejected codec conf clock (clock (ticks s0))
              (slice 19 n (receive_buffer s)) (set_ticks (S (ticks s0)) s0))
    as (sub & ->); [done|].
  eexists _, (length_report n data), sub. split; [reflexivity|]. simpl.
  rewrite Hb0, Hf0, Hr0, Hc0, <- app_assoc. done.
Qed.

End Errors.

(** C8. For every buffered, synchronised header whose declared length is
    below 19 or above 4096, [parse_buffer] first calls [fsm.header_error]
    with the bad-message-length sub-error and the two bytes of that length,
    and then carries on exactly as it does after the length check of any
    other header: it waits if the declared bytes are not all there, and
    otherwise dispatches the message and, unless the [try] block returns,
    drops the declared bytes and returns [True]. A declared length below 19
    is always there in full. *)
Theorem parse_buffer_bad_length
    (codec : Codec) (conf : Conf) (clock : nat -> Z) (s : BGP)
    (marker : bytes) (n ty : nat) :
  take 16 (receive_buffer s) = replicate 16 xff ->
  header (receive_buffer s) = Ok (marker, n, ty) ->
  (n < 19 \/ 4096 < n)%nat ->
  let buf := receive_buffer s in
  let r := (parse_buffer codec conf clock s).1 in
  let s' := (parse_buffer codec conf clock s).2 in
  exists hi lo,
    pack_H n = Ok [hi; lo] /\
    (256 * Byte.to_nat hi + Byte.to_nat lo)%nat = n /\
    let report := Fsm_header_error bgp_cons.ERR_MSG_HDR_BAD_MSG_LEN (Some [hi; lo]) in
    let reported := set_calls (calls s ++ [report]) s in
    parse_buffer codec conf clock s = parse_message codec conf clock buf n ty reported /\
    (exists l, new_calls s s' = report :: l) /\
    ((n <= length buf)%nat ->
     error_return codec s ty (slice 19 n buf) = false ->
     r = Ok true /\ receive_buffer s' = drop n buf) /\
    ((n < 19)%nat -> (n <= length buf)%nat) /\
    ((length buf < n)%nat -> parse_buffer codec conf clock s = (Ok false, reported)).
Proof.
  intros Hm Hh Hbad buf r s'. subst buf r s'.
  apply bad_length_outside in Hbad.
  pose proof (header_length _ _ _ _ Hh) as H19.
  destruct (pack_H_ok n) as (hi & lo & Hp & Hv).
  { unfold header in Hh. by apply unpack_16sHB_bound in Hh as [? _]. }
  exists hi, lo. split; [done|]. split; [done|]. intros report reported.
  destruct (parse_buffer_header codec conf clock s _ _ _ Hm Hh) as (data & Hp' & Heq).
  rewrite Hbad in Heq. rewrite Hp in Hp'. injection Hp' as <-.
  fold report reported in Heq.
  pose proof (parse_buffer_reads codec conf clock s) as Hr.
  split; [done|]. split; [|split; [|split]].
  - destruct (reads_calls_header codec _ _ _ _ _ _ _ Hr Hm Hh Hp) as (l & Hc).
    unfold length_report in Hc. rewrite Hbad in Hc.
    erewrite new_calls_app by exact Hc. by eexists.
  - intros Hn He. by eapply reads_consumed_inv.
  - lia.
  - intros Hlt. rewrite Heq. by apply parse_message_wait.
Qed.

Lemma parse_buffer_bad_length_witness :
  let s := demo.with_buffer demo.short_length_msg in
  exists l,
    new_calls s (parse_buffer demo.codec demo.conf demo.clock s).2
    = Fsm_header_error bgp_cons.ERR_MSG_HDR_BAD_MSG_LEN (Some [x00; x05]) :: l.
Proof.
  intros s.
  assert (Hbad : (5 < 19 \/ 4096 < 5)%nat) by (left; lia).
  destruct (parse_buffer_bad_length demo.codec demo.conf demo.clock s
              (replicate 16 xff) 5%nat 4%nat eq_refl eq_refl Hbad)
    as (hi & lo & Hp & _ & _ & (l & Hl) & _).
  exists l. rewrite Hl. injection Hp as <- <-. reflexivity.
Defined.

(** C9. For every receive buffer of at least 19 bytes whose first 16 are
    not all 0xFF, [parse_buffer] calls [fsm.header_error] with the
    connection-not-synchronised sub-error and nothing else, and returns
    [False] with the buffer as it was; the loop of [dataReceived] ends
    there, whatever lies further in the buffer. *)
Theorem parse_buffer_not_synchronized
    (codec : Codec) (conf : Conf) (clock : nat -> Z) (s : BGP) :
  (19 <= length (receive_buffer s))%nat ->
  take 16 (receive_buffer s) <> replicate 16 xff ->
  let report := Fsm_header_error bgp_cons.ERR_MSG_HDR_CONN_NOT_SYNC None in
  let s' := set_calls (calls s ++ [report]) s in
  parse_buffer codec conf clock s = (Ok false, s') /\
  receive_buffer s' = receive_buffer s /\
  new_calls s s' = [report] /\
  forall fuel, drain codec conf clock (S fuel) s = Some (Ok tt, s').
Proof.
  intros H19 Hm report s'.
  pose proof (parse_buffer_unsync codec conf clock s H19 Hm) as Hp.
  split; [done|]. split; [done|]. split.
  - by apply new_calls_app.
  - intros fuel. simpl. by rewrite Hp.
Qed.

Lemma parse_buffer_not_synchronized_witness :
  let s := demo.with_buffer (replicate 19 x00 ++ demo.keepalive_msg) in
  drain demo.codec demo.conf demo.clock 1 s
  = Some (Ok tt,
          set_calls [Fsm_header_error bgp_cons.ERR_MSG_HDR_CONN_NOT_SYNC None] s).
Proof.
  intros s.
  exact (proj2 (proj2 (proj2
           (parse_buffer_not_synchronized demo.codec demo.conf demo.clock s
              ltac:(simpl; lia) ltac:(discriminate)))) 0%nat).
Defined.

(** C10. Whenever [parse_buffer] returns [False], the receive buffer is as
    it was: no path that returns [False] (a short buffer, a marker
    mismatch, an incomplete message, a header error or an Open error raised
    by a handler) comes after the line that advances the buffer. For a
    buffered Open that is rejected, the counter of received Opens has gone
    up by one all the same, the bytes of the Open are still at the head of
    the buffer, and the next data event parses and rejects it again and
    counts it again. A rejected KeepAlive stays and is counted the same
    way. *)
Theorem parse_buffer_error_return_keeps_buffer
    (codec : Codec) (conf : Conf) (clock : nat -> Z) (s : BGP) :
  let buf := receive_buffer s in
  (forall s', parse_buffer codec conf clock s = (Ok false, s') ->
              receive_buffer s' = buf) /\
  (forall marker n,
     take 16 buf = replicate 16 xff ->
     header buf = Ok (marker, n, bgp_cons.MSG_OPEN) ->
     (n <= length buf)%nat ->
     error_return codec s bgp_cons.MSG_OPEN (slice 19 n buf) = true ->
     exists s1,
       parse_buffer codec conf clock s = (Ok false, s1) /\
       receive_buffer s1 = buf /\
       Opens (msg_recv_stat s1) = S (Opens (msg_recv_stat s)) /\
       forall data fuel,
       exists s2,
         dataReceived codec conf clock (S fuel) data s1 = Some (Ok tt, s2) /\
         receive_buffer s2 = buf ++ data /\
         Opens (msg_recv_stat s2) = S (S (Opens (msg_recv_stat s)))) /\
  (forall marker n,
     take 16 buf = replicate 16 xff ->
     header buf = Ok (marker, n, bgp_cons.MSG_KEEPALIVE) ->
     (n <= length buf)%nat ->
     error_return codec s bgp_cons.MSG_KEEPALIVE (slice 19 n buf) = true ->
     exists s1,
       parse_buffer codec conf clock s = (Ok false, s1) /\
       receive_buffer s1 = buf /\
       Keepalives (msg_recv_stat s1) = S (Keepalives (msg_recv_stat s)) /\
       forall data fuel,
       exists s2,
         dataReceived codec conf clock (S fuel) data s1 = Some (Ok tt, s2) /\
         receive_buffer s2 = buf ++ data /\
         Keepalives (msg_recv_stat s2) = S (S (Keepalives (msg_recv_stat s)))).
Proof.
  intros buf. subst buf. split; [|split].
  - intros s' Hp. pose proof (parse_buffer_reads codec conf clock s) as Hr.
    rewrite Hp in Hr. by eapply reads_not_true.
  - intros marker n Hm Hh Hn He. pose proof (header_length _ _ _ _ Hh) as H19.
    destruct (parse_buffer_open_rejected codec conf clock s marker n Hm Hh Hn He)
      as (s1 & l & c & Hp & Hb & Hf & Hst & _).
    exists s1. split; [done|]. split; [done|]. split; [by rewrite Hst|].
    intros data fuel. unfold dataReceived.
    set (s1' := set_receive_buffer (receive_buffer s1 ++ data) s1).
    destruct (parse_buffer_open_rejected codec conf clock s1' marker n)
      as (s2 & l' & c' & Hp' & Hb' & _ & Hst' & _).
    + simpl. rewrite Hb, take_app_le by lia. done.
    + simpl. rewrite Hb, header_app by done. done.
    + simpl. rewrite Hb, length_app. lia.
    + simpl. rewrite Hb, slice_app by done.
      unfold error_return in *. simpl in *. by rewrite Hf.
    + exists s2. simpl. rewrite Hp'. split; [done|].
      split; [by rewrite Hb', <- Hb|]. rewrite Hst'. simpl. by rewrite Hst.
  - intros marker n Hm Hh Hn He. pose proof (header_length _ _ _ _ Hh) as H19.
    destruct (parse_buffer_keepalive_rejected codec conf clock s marker n Hm Hh Hn He)
      as (s1 & l & c & Hp & Hb & Hf & Hst & _).
    exists s1. split; [done|]. split; [done|]. split; [by rewrite Hst|].
    intros data fuel. unfold dataReceived.
    set (s1' := set_receive_buffer (receive_buffer s1 ++ data) s1).
    destruct (parse_buffer_keepalive_rejected codec conf clock s1' marker n)
      as (s2 & l' & c' & Hp' & Hb' & _ & Hst' & _).
    + simpl. rewrite Hb, take_app_le by lia. done.
    + simpl. rewrite Hb, header_app by done. done.
    + simpl. rewrite Hb, length_app. lia.
    + simpl. rewrite Hb, slice_app by done. done.
    + exists s2. simpl. rewrite Hp'. split; [done|].
      split; [by rewrite Hb', <- Hb|]. rewrite Hst'. simpl. by rewrite Hst.
Qed.

Lemma parse_buffer_error_return_keeps_buffer_witness :
  let s := demo.with_buffer demo.open_msg_bad_as in
  exists s1,
    parse_buffer demo.codec demo.conf demo.clock s = (Ok false, s1) /\
    receive_buffer s1 = demo.open_msg_bad_as /\
    Opens (msg_recv_stat s1) = 1%nat /\
    exists s2,
      dataReceived demo.codec demo.conf demo.clock 1 demo.five s1 = Some (Ok tt, s2) /\
      receive_buffer s2 = demo.open_msg_bad_as ++ demo.five /\
      Opens (msg_recv_stat s2) = 2%nat.
Proof.
  intros s.
  assert (Hn : (29 <= length (receive_buffer s))%nat) by (simpl; lia).
  destruct (proj1 (proj2
              (parse_buffer_error_return_keeps_buffer demo.codec demo.conf demo.clock s))
              (replicate 16 xff) 29%nat eq_refl eq_refl Hn eq_refl)
    as (s1 & Hp & Hb & Hc & Hnext).
  exists s1. split; [exact Hp|]. split; [exact Hb|]. split; [exact Hc|].
  exact (Hnext demo.five 0%nat).
Defined.

(** ** The loop of [dataReceived] *)

(** A session that receives an Open from the expected AS with hold time 90:
    the Open is consumed and counted, the hold time becomes 90 and the
    keepalive interval 30. *)
Example open_accepted :
  match dataReceived demo.codec demo.conf demo.clock 2 demo.open_msg demo.session with
  | Some (Ok _, s') =>
      receive_buffer s' = [] /\
      Opens (msg_recv_stat s') = 1%nat /\
      hold_time (fsm s') = 90 /\
      keep_alive_time (fsm s') = 30 /\
      last (calls s') = Some Fsm_open_received
  | _ => False
  end.
Proof. vm_compute. repeat split; reflexivity. Qed.

(** Why the loop takes fuel: a synchronised header that declares length 0
    and whose (empty) body the [try] block never returns on is reported,
    dispatched and "consumed" without the buffer losing a byte, so
    [parse_buffer] returns [True] for ever. *)
Lemma drain_zero_length (codec : Codec) (conf : Conf) (clock : nat -> Z)
    (marker : bytes) (ty : nat) (fuel : nat) (s : BGP) :
  take 16 (receive_buffer s) = replicate 16 xff ->
  header (receive_buffer s) = Ok (marker, 0%nat, ty) ->
  (forall s1, error_return codec s1 ty [] = false) ->
  drain codec conf clock fuel s = None.
Proof.
  revert s. induction fuel as [|fuel IH]; intros s Hm Hh He; [done|].
  simpl.
  pose proof (parse_buffer_reads codec conf clock s) as Hr.
  destruct (reads_consumed_inv codec _ _ _ _ _ _ Hr Hm Hh ltac:(lia)) as [Ht Hb].
  { unfold slice. rewrite take_0. apply He. }
  destruct (parse_buffer codec conf clock s) as [r s1]. simpl in *. subst r.
  rewrite drop_0 in Hb. apply IH; by rewrite ?Hb.
Qed.

(** * Further properties of the class *)

(** ** Relations that every step of a method keeps *)

Section Steps.

Context {A B : Type} (R : BGP -> BGP -> Prop).
Hypothesis R_refl : forall s, R s s.
Hypothesis R_trans : forall a b c, R a b -> R b c -> R a c.

Lemma steps_ret (a : A) : steps R (ret a).
Proof. intros s. apply R_refl. Qed.

Lemma steps_raise (e : exn) : steps R (@raise A e).
Proof. intros s. apply R_refl. Qed.

Lemma steps_lift (r : result A) : steps R (lift r).
Proof. intros s. apply R_refl. Qed.

Lemma steps_get (f : BGP -> A) : steps R (get f).
Proof. intros s. apply R_refl. Qed.

Lemma steps_modify (f : BGP -> BGP) : (forall s, R s (f s)) -> steps R (modify f).
Proof. intros H s. apply H. Qed.

Lemma steps_bind (m : M A) (k : A -> M B) :
  steps R m -> (forall a, steps R (k a)) -> steps R (bind m k).
Proof.
  intros Hm Hk s. unfold bind. specialize (Hm s).
  destruct (m s) as [[a|e] s1]; simpl in *; [|done].
  eapply R_trans; [exact Hm|apply Hk].
Qed.

Lemma steps_try_except (m : M A) (h : exn -> M A) :
  steps R m -> (forall e, steps R (h e)) -> steps R (try_except m h).
Proof.
  intros Hm Hh s. unfold try_except. specialize (Hm s).
  destruct (m s) as [[a|e] s1]; simpl in *; [done|].
  eapply R_trans; [exact Hm|apply Hh].
Qed.

End Steps.

(** Break a method down; [leaf] proves [R s (f s)] for the single updates
    and [atom] the methods that are taken whole. *)
Ltac steps_with refl trans leaf atom :=
  repeat match goal with
         | |- steps _ _ => solve [atom]
         | |- steps _ (bind _ _) => apply (steps_bind _ trans); [|intros ?]
         | |- steps _ (try_except _ _) => apply (steps_try_except _ trans); [|intros ?]
         | |- steps _ (ret _) => apply (steps_ret _ refl)
         | |- steps _ (raise _) => apply (steps_raise _ refl)
         | |- steps _ (lift _) => apply (steps_lift _ refl)
         | |- steps _ (get _) => apply (steps_get _ refl)
         | |- steps _ (modify _) => apply steps_modify; intros ?; solve [leaf]
         | |- steps _ (emit _) => unfold emit
         | |- steps _ (time_time _) => intros ?; simpl; solve [leaf]
         | |- steps _ (parse _ _ _) => unfold parse
         | |- steps _ (if ?b then _ else _) => destruct b eqn:?
         | |- steps _ (match ?x with _ => _ end) => destruct x eqn:?
         end.

(** ** What receiving calls *)

Lemma said_refl (P : call -> Prop) (s : BGP) : said P s s.
Proof. exists []. by rewrite app_nil_r. Qed.

Lemma said_trans (P : call -> Prop) (a b c : BGP) :
  said P a b -> said P b c -> said P a c.
Proof.
  intros (l1 & H1 & F1) (l2 & H2 & F2). exists (l1 ++ l2).
  rewrite H2, H1, app_assoc. split; [done|]. by apply Forall_app.
Qed.

Lemma said_one (P : call -> Prop) (c : call) (s : BGP) :
  P c -> said P s (set_calls (calls s ++ [c]) s).
Proof. intros H. exists [c]. split; [done|]. by constructor. Qed.

Lemma said_silent (P : call -> Prop) (s s' : BGP) : calls s' = calls s -> said P s s'.
Proof. intros H. exists []. by rewrite app_nil_r. Qed.

Ltac said_leaf :=
  first [ apply said_silent; simpl;
          repeat match goal with |- context [if ?b then _ else _] => destruct b end;
          reflexivity
        | apply said_one; simpl; repeat split; eauto; try congruence;
          by apply negb_true_iff ].

Section Said.

Variables (codec : Codec) (conf : Conf) (clock : nat -> Z).

Abbreviation says := (steps (said (receive_call conf))).

Lemma dispatch_says (t : Z) (msg_type : nat) (msg : bytes) :
  says (dispatch codec conf clock t msg_type msg).
Proof.
  unfold dispatch, open_received, update_received, notification_received,
    keepalive_received, route_refresh_received, negotiate_hold_time.
  steps_with (said_refl (receive_call conf)) (said_trans (receive_call conf))
             said_leaf fail.
Qed.

Lemma parse_buffer_says : says (parse_buffer codec conf clock).
Proof.
  unfold parse_buffer, parse_message.
  steps_with (said_refl (receive_call conf)) (said_trans (receive_call conf))
             said_leaf ltac:(apply dispatch_says).
Qed.

(** A relation that [parse_buffer] keeps, the loop keeps. *)
Lemma drain_steps (R : BGP -> BGP -> Prop) :
  (forall s, R s s) -> (forall a b c, R a b -> R b c -> R a c) ->
  steps R (parse_buffer codec conf clock) ->
  forall fuel s r s', drain codec conf clock fuel s = Some (r, s') -> R s s'.
Proof.
  intros Hrefl Htrans Hp fuel. induction fuel as [|fuel IH]; intros s r s'; [done|].
  simpl. specialize (Hp s).
  destruct (parse_buffer codec conf clock s) as [[[|]|e] s1]; simpl in Hp.
  - intros Hd. eapply Htrans; [exact Hp|]. by eapply IH.
  - by intros [= <- <-].
  - by intros [= <- <-].
Qed.

End Said.

(** X1. Whatever bytes arrive and however the loop of [dataReceived] ends,
    the calls it adds are calls of the receiving side: nothing is written
    to the transport; every record handed to the sink is flushed and has
    the type code of what it archives (1 Open, 2 or 6 Update,
    3 Notification, 4 KeepAlive), filed under (0, 0) unless it is an
    Update; a KeepAlive is archived only when [write_keepalive] is set;
    and only Updates are published, never in standalone mode. What was
    recorded before stays. *)
Theorem dataReceived_calls
    (codec : Codec) (conf : Conf) (clock : nat -> Z)
    (fuel : nat) (data : bytes) (s s' : BGP) (r : result unit) :
  dataReceived codec conf clock fuel data s = Some (r, s') ->
  exists l, calls s' = calls s ++ l /\ Forall (receive_call conf) l.
Proof.
  intros Hd. unfold dataReceived in Hd.
  apply (drain_steps codec conf clock (said (receive_call conf))
           (said_refl _) (said_trans _) (parse_buffer_says codec conf clock)) in Hd.
  exact Hd.
Qed.

Lemma dataReceived_calls_witness :
  exists s' l,
    dataReceived demo.codec demo.conf demo.clock 3
      (demo.open_msg ++ demo.keepalive_msg) demo.session = Some (Ok tt, s') /\
    calls s' = calls demo.session ++ l /\ Forall (receive_call demo.conf) l.
Proof.
  eexists.
  assert (Hd : dataReceived demo.codec demo.conf demo.clock 3
                 (demo.open_msg ++ demo.keepalive_msg) demo.session
               = Some (Ok tt, _)) by (vm_compute; reflexivity).
  destruct (dataReceived_calls _ _ _ _ _ _ _ _ Hd) as (l & Hc & Hl).
  exists l. split; [exact Hd|]. split; [exact Hc|exact Hl].
Defined.

(** ** What receiving does not undo *)

Lemma grows_refl (s : BGP) : grows s s.
Proof. by constructor. Qed.

Lemma grows_trans (a b c : BGP) : grows a b -> grows b c -> grows a c.
Proof.
  intros [] []. constructor; try congruence; try lia; auto.
Qed.

Ltac grows_leaf :=
  constructor; simpl;
  repeat match goal with |- context [if ?b then _ else _] => destruct b end;
  simpl; auto; lia.

Lemma negotiate_hold_time_grows (h : Z) : steps grows (negotiate_hold_time h).
Proof.
  intros s. rewrite negotiate_hold_time_run. constructor; simpl; auto; lia.
Qed.

Section Grows.

Variables (codec : Codec) (conf : Conf) (clock : nat -> Z).

Lemma dispatch_grows (t : Z) (msg_type : nat) (msg : bytes) :
  steps grows (dispatch codec conf clock t msg_type msg).
Proof.
  unfold dispatch, open_received, update_received, notification_received,
    keepalive_received, route_refresh_received.
  steps_with grows_refl grows_trans grows_leaf ltac:(apply negotiate_hold_time_grows).
Qed.

Lemma parse_buffer_grows : steps grows (parse_buffer codec conf clock).
Proof.
  unfold parse_buffer, parse_message.
  steps_with grows_refl grows_trans grows_leaf ltac:(apply dispatch_grows).
Qed.

End Grows.

(** X2. Whatever bytes arrive and however the loop of [dataReceived] ends:
    the four-octet-AS flag, once set, stays set; no counter of received
    messages goes down; the counters of sent messages, the configured
    (local) capabilities, the peer AS that is expected and the flag
    [disconnected] are as they were. *)
Theorem dataReceived_keeps
    (codec : Codec) (conf : Conf) (clock : nat -> Z)
    (fuel : nat) (data : bytes) (s s' : BGP) (r : result unit) :
  dataReceived codec conf clock fuel data s = Some (r, s') ->
  (fourbytesas s = true -> fourbytesas s' = true) /\
  msg_sent_stat s' = msg_sent_stat s /\
  local (capability s') = local (capability s) /\
  peer_asn (fsm s') = peer_asn (fsm s) /\
  disconnected s' = disconnected s /\
  (Opens (msg_recv_stat s) <= Opens (msg_recv_stat s'))%nat /\
  (Notifications (msg_recv_stat s) <= Notifications (msg_recv_stat s'))%nat /\
  (Updates (msg_recv_stat s) <= Updates (msg_recv_stat s'))%nat /\
  (Keepalives (msg_recv_stat s) <= Keepalives (msg_recv_stat s'))%nat /\
  (RouteRefresh (msg_recv_stat s) <= RouteRefresh (msg_recv_stat s'))%nat.
Proof.
  intros Hd. unfold dataReceived in Hd.
  apply (drain_steps codec conf clock grows grows_refl grows_trans
           (parse_buffer_grows codec conf clock)) in Hd.
  destruct Hd. simpl in *. repeat split; assumption.
Qed.

Lemma dataReceived_keeps_witness :
  exists s',
    dataReceived demo.codec demo.conf demo.clock 3
      (demo.open_msg ++ demo.keepalive_msg) demo.session = Some (Ok tt, s') /\
    msg_sent_stat s' = msg_sent_stat demo.session /\
    (Opens (msg_recv_stat demo.session) <= Opens (msg_recv_stat s'))%nat.
Proof.
  eexists.
  assert (Hd : dataReceived demo.codec demo.conf demo.clock 3
                 (demo.open_msg ++ demo.keepalive_msg) demo.session
               = Some (Ok tt, _)) by (vm_compute; reflexivity).
  destruct (dataReceived_keeps _ _ _ _ _ _ _ _ Hd)
    as (_ & Hs & _ & _ & _ & Ho & _).
  split; [exact Hd|]. split; [exact Hs|exact Ho].
Defined.

(** X3. The hold time of the session never goes up while data is
    received, and a keepalive interval that is a third of the hold time
    stays a third of the hold time: no step of the receiving side changes
    one without the other. *)
Theorem dataReceived_hold_time
    (codec : Codec) (conf : Conf) (clock : nat -> Z)
    (fuel : nat) (data : bytes) (s s' : BGP) (r : result unit) :
  dataReceived codec conf clock fuel data s = Some (r, s') ->
  hold_time (fsm s') <= hold_time (fsm s) /\
  (keep_alive_time (fsm s) = hold_time (fsm s) / 3 ->
   keep_alive_time (fsm s') = hold_time (fsm s') / 3).
Proof.
  intros Hd. unfold dataReceived in Hd.
  apply (drain_steps codec conf clock grows grows_refl grows_trans
           (parse_buffer_grows codec conf clock)) in Hd.
  destruct Hd. simpl in *. split; assumption.
Qed.

Lemma dataReceived_hold_time_witness :
  exists s',
    dataReceived demo.codec demo.conf demo.clock 3
      (demo.open_msg ++ demo.keepalive_msg) demo.session = Some (Ok tt, s') /\
    hold_time (fsm s') <= 180 /\
    keep_alive_time (fsm s') = hold_time (fsm s') / 3.
Proof.
  eexists.
  assert (Hd : dataReceived demo.codec demo.conf demo.clock 3
                 (demo.open_msg ++ demo.keepalive_msg) demo.session
               = Some (Ok tt, _)) by (vm_compute; reflexivity).
  destruct (dataReceived_hold_time _ _ _ _ _ _ _ _ Hd) as (Hh & Hk).
  split; [exact Hd|]. split; [exact Hh|]. apply Hk. reflexivity.
Defined.

(** ** When the loop ends *)

Section Ends.

Variables (codec : Codec) (conf : Conf) (clock : nat -> Z).

Lemma drain_more_fuel (fuel extra : nat) (s : BGP) (x : result unit * BGP) :
  drain codec conf clock fuel s = Some x ->
  drain codec conf clock (fuel + extra) s = Some x.
Proof.
  revert s. induction fuel as [|fuel IH]; intros s; [done|]. simpl.
  destruct (parse_buffer codec conf clock s) as [[[|]|e] s1]; try done.
  apply IH.
Qed.

(** With more fuel than bytes, the loop ends unless it meets a header that
    declares length 0: every other [True] shortens the buffer. *)
Lemma drain_ends (fuel : nat) (s : BGP) :
  (length (receive_buffer s) < fuel)%nat ->
  (forall k marker ty, header (drop k (receive_buffer s)) <> Ok (marker, 0%nat, ty)) ->
  exists s', drain codec conf clock fuel s = Some (Ok tt, s').
Proof.
  revert s. induction fuel as [|fuel IH]; intros s Hlen Hnz; [lia|]. simpl.
  pose proof (parse_buffer_reads codec conf clock s) as Hr.
  destruct (parse_buffer codec conf clock s) as [r1 s1]. simpl in Hr.
  destruct r1 as [[|]|e].
  - destruct (reads_true _ _ _ Hr) as (marker & n & ty & Hh & Hn & Hb).
    assert (n <> 0)%nat.
    { intros ->. apply (Hnz 0%nat marker ty). by rewrite drop_0. }
    apply IH.
    + rewrite Hb, length_drop. lia.
    + intros k marker' ty'. rewrite Hb, drop_drop. apply Hnz.
  - by eexists.
  - by destruct (reads_returns _ _ _ _ Hr).
Qed.

End Ends.

(** X4. The loop of [dataReceived] ends, and without raising, within one
    call of [parse_buffer] more than there are bytes in the buffer,
    provided that at no offset of the buffered bytes stands a header that
    declares length 0 (the one case in which [parse_buffer] returns [True]
    without shortening the buffer); more calls allowed change nothing. *)
Theorem dataReceived_ends
    (codec : Codec) (conf : Conf) (clock : nat -> Z) (data : bytes) (s : BGP) :
  (forall k marker ty,
     header (drop k (receive_buffer s ++ data)) <> Ok (marker, 0%nat, ty)) ->
  exists s',
    forall fuel,
      (length (receive_buffer s ++ data) < fuel)%nat ->
      dataReceived codec conf clock fuel data s = Some (Ok tt, s').
Proof.
  intros Hnz. unfold dataReceived.
  set (s0 := set_receive_buffer (receive_buffer s ++ data) s).
  destruct (drain_ends codec conf clock (S (length (receive_buffer s0))) s0
              ltac:(lia) Hnz) as [s' Hd].
  exists s'. intros fuel Hf.
  replace fuel with (S (length (receive_buffer s0)) + (fuel - S (length (receive_buffer s0))))%nat
    by (simpl in *; lia).
  by apply drain_more_fuel.
Qed.

Lemma dataReceived_ends_witness :
  exists s',
    dataReceived demo.codec demo.conf demo.clock 25 demo.keepalive_msg demo.session
    = Some (Ok tt, s').
Proof.
  assert (Hnz : forall k marker ty,
            header (drop k (receive_buffer demo.session ++ demo.keepalive_msg))
            <> Ok (marker, 0%nat, ty)).
  { intros k marker ty H. destruct k as [|k].
    - vm_compute in H. discriminate H.
    - apply header_length in H. rewrite length_drop in H. simpl in H. lia. }
  destruct (dataReceived_ends demo.codec demo.conf demo.clock demo.keepalive_msg
              demo.session Hnz) as [s' Hs'].
  exists s'. apply Hs'. simpl. lia.
Defined.

(** ** Whole messages, by kind *)

Lemma known_type_false (ty : nat) :
  known_type ty = false ->
  (ty =? bgp_cons.MSG_OPEN)%nat = false /\
  (ty =? bgp_cons.MSG_UPDATE)%nat = false /\
  (ty =? bgp_cons.MSG_NOTIFICATION)%nat = false /\
  (ty =? bgp_cons.MSG_KEEPALIVE)%nat = false /\
  (ty =? bgp_cons.MSG_ROUTEREFRESH)%nat = false /\
  (ty =? bgp_cons.MSG_CISCOROUTEREFRESH)%nat = false.
Proof.
  unfold known_type. rewrite !orb_false_iff. tauto.
Qed.

Lemma pack_H_byte (ty : nat) :
  (ty < 256)%nat -> exists b, Byte.to_nat b = ty /\ pack_H ty = Ok [x00; b].
Proof.
  intros H. destruct (of_nat_small ty H) as (b & Hb & Hv).
  exists b. split; [done|]. unfold pack_H.
  rewrite Nat.div_small, Nat.mod_small by done. by rewrite Hb.
Qed.

Section Kinds.

Variables (codec : Codec) (conf : Conf) (clock : nat -> Z).

Lemma dispatch_unknown (t : Z) (ty : nat) (msg data : bytes) (s : BGP) :
  known_type ty = false ->
  pack_H ty = Ok data ->
  dispatch codec conf clock t ty msg s
  = (Ok FallThrough,
     set_calls (calls s ++ [Fsm_header_error bgp_cons.ERR_MSG_HDR_BAD_MSG_TYPE (Some data)]) s).
Proof.
  intros (E1 & E2 & E3 & E4 & E5 & E6)%known_type_false Hp.
  unfold dispatch. rewrite E1, E2, E3, E4, E5, E6.
  unfold try_except, bind, lift, emit, modify, ret. by rewrite Hp.
Qed.

Lemma error_return_other (ty : nat) (msg : bytes) (s : BGP) :
  (ty =? bgp_cons.MSG_OPEN)%nat = false ->
  (ty =? bgp_cons.MSG_KEEPALIVE)%nat = false ->
  error_return codec s ty msg = false.
Proof. intros E1 E4. unfold error_return. by rewrite E1, E4. Qed.

Lemma dispatch_update_raises (t : Z) (msg : bytes) (s : BGP) (e : exn) :
  Update_parse codec t (fourbytesas s) msg = Raise e ->
  dispatch codec conf clock t bgp_cons.MSG_UPDATE msg s
  = (Ok FallThrough, set_calls (calls s ++ [Codec_parse KUpdate msg]) s).
Proof. intros H. run_method. by rewrite H. Qed.

Lemma dispatch_notification_raises (t : Z) (msg : bytes) (s : BGP) (e : exn) :
  Notification_parse codec msg = Raise e ->
  dispatch codec conf clock t bgp_cons.MSG_NOTIFICATION msg s
  = (Ok FallThrough, set_calls (calls s ++ [Codec_parse KNotification msg]) s).
Proof. intros H. run_method. by rewrite H. Qed.

Lemma dispatch_notification (t : Z) (msg : bytes) (s : BGP) (error suberror : Z)
    (data : bytes) :
  Notification_parse codec msg = Ok (error, suberror, data) ->
  dispatch codec conf clock t bgp_cons.MSG_NOTIFICATION msg s
  = (Ok FallThrough,
     set_calls
       (calls s ++
        [Codec_parse KNotification msg;
         Factory_write_msg (clock (ticks s)) 3 (PNotification error suberror data)
           (0, 0) true;
         Fsm_notification_received error suberror])
       (set_ticks (S (ticks s))
          (set_msg_recv_stat (incr_Notifications (msg_recv_stat s)) s))).
Proof. intros H. run_method. rewrite H. simpl. by rewrite <- !app_assoc. Qed.

Lemma dispatch_open_accepted (t : Z) (msg : bytes) (s : BGP) (m : OpenMsg) :
  Open_parse codec msg = Ok m ->
  asn m = peer_asn (fsm s) ->
  let negotiated := Z.min (hold_time (fsm s)) (open_hold_time m) in
  dispatch codec conf clock t bgp_cons.MSG_OPEN msg s
  = (Ok FallThrough,
     set_fsm {| hold_time := negotiated; keep_alive_time := negotiated / 3;
                peer_asn := peer_asn (fsm s) |}
       (set_peer_id (Some (bgp_id m))
          (set_fourbytesas (fourbytesas s || dict_mem "four_bytes_as" (capa_dict m))
             (set_capability (set_remote (capa_dict m) (capability s))
                (set_msg_recv_stat (incr_Opens (msg_recv_stat s))
                   (set_calls
                      (calls s ++
                       [Codec_parse KOpen msg;
                        Factory_write_msg t 1 (POpen m) (0, 0) true;
                        Peering_set_peer_id (bgp_id m)]
                       ++ (if negb (negotiated =? 0) && (negotiated <? 3)
                           then [Fsm_open_message_error
                                   bgp_cons.ERR_MSG_OPEN_UNACCPT_HOLD_TIME]
                           else [])
                       ++ [Fsm_open_received])
                      s)))))).
Proof.
  intros Hm Ha negotiated. subst negotiated. run_method. rewrite Hm. simpl.
  rewrite Ha, Z.eqb_refl. simpl.
  destruct (dict_mem "four_bytes_as" (capa_dict m)); simpl;
    rewrite ?orb_true_r, ?orb_false_r;
    destruct (negb (Z.min (hold_time (fsm s)) (open_hold_time m) =? 0)
              && (Z.min (hold_time (fsm s)) (open_hold_time m) <? 3));
    simpl; rewrite <- ?app_assoc; simpl; try reflexivity.
Qed.

End Kinds.

(** X5. A whole message of a length in 19..4096 whose type code is none
    of 1, 2, 3, 4, 5 and 128 is not handed to any codec and counted
    nowhere: [parse_buffer] calls [fsm.header_error] once, with the
    bad-message-type sub-error and the type code packed on two bytes,
    drops the message from the buffer and returns [True]. *)
Theorem parse_buffer_unknown_type
    (codec : Codec) (conf : Conf) (clock : nat -> Z)
    (s : BGP) (msg rest marker : bytes) (ty : nat) :
  receive_buffer s = msg ++ rest ->
  take 16 msg = replicate 16 xff ->
  header msg = Ok (marker, length msg, ty) ->
  (length msg <= 4096)%nat ->
  known_type ty = false ->
  exists b,
    Byte.to_nat b = ty /\
    parse_buffer codec conf clock s
    = (Ok true,
       set_receive_buffer rest
         (set_calls
            (calls s ++ [Fsm_header_error bgp_cons.ERR_MSG_HDR_BAD_MSG_TYPE
                           (Some [x00; b])])
            (set_ticks (S (ticks s)) s))).
Proof.
  intros Hb Hm Hh Hn Hk.
  destruct (pack_H_byte ty) as (b & Hv & Hp).
  { unfold header in Hh. by apply unpack_16sHB_bound in Hh as [_ ?]. }
  exists b. split; [done|].
  rewrite (parse_buffer_one codec conf clock s msg rest marker ty) by done.
  cbn zeta.
  destruct (known_type_false ty Hk) as (E1 & _ & _ & E4 & _).
  rewrite (error_return_other codec ty _ s E1 E4).
  by rewrite (dispatch_unknown codec conf clock _ ty _ [x00; b]).
Qed.

Lemma parse_buffer_unknown_type_witness :
  let msg := replicate 16 xff ++ [x00; x13; x07] in
  exists b,
    Byte.to_nat b = 7%nat /\
    parse_buffer demo.codec demo.conf demo.clock (demo.with_buffer (msg ++ demo.five))
    = (Ok true,
       set_receive_buffer demo.five
         (set_calls [Fsm_header_error bgp_cons.ERR_MSG_HDR_BAD_MSG_TYPE (Some [x00; b])]
            (set_ticks 1 (demo.with_buffer (msg ++ demo.five))))).
Proof.
  intros msg.
  exact (parse_buffer_unknown_type demo.codec demo.conf demo.clock
           (demo.with_buffer (msg ++ demo.five)) msg demo.five (replicate 16 xff) 7%nat
           eq_refl eq_refl eq_refl ltac:(simpl; lia) eq_refl).
Defined.

(** X6. An Update or a Notification whose decoding raises, whatever the
    exception, is dropped without a trace on the session: the whole
    message leaves the buffer and [parse_buffer] returns [True], but no
    counter moves, nothing is archived and the FSM is told nothing; the
    call to the codec is all that happened. *)
Theorem parse_buffer_swallows
    (codec : Codec) (conf : Conf) (clock : nat -> Z)
    (s : BGP) (msg rest marker : bytes) (ty : nat) (kind : msg_kind) (e : exn) :
  receive_buffer s = msg ++ rest ->
  take 16 msg = replicate 16 xff ->
  header msg = Ok (marker, length msg, ty) ->
  (length msg <= 4096)%nat ->
  (ty = bgp_cons.MSG_UPDATE /\ kind = KUpdate /\
   Update_parse codec (clock (ticks s)) (fourbytesas s) (drop 19 msg) = Raise e) \/
  (ty = bgp_cons.MSG_NOTIFICATION /\ kind = KNotification /\
   Notification_parse codec (drop 19 msg) = Raise e) ->
  parse_buffer codec conf clock s
  = (Ok true,
     set_receive_buffer rest
       (set_calls (calls s ++ [Codec_parse kind (drop 19 msg)])
          (set_ticks (S (ticks s)) s))).
Proof.
  intros Hb Hm Hh Hn Hk.
  rewrite (parse_buffer_one codec conf clock s msg rest marker ty) by done.
  cbn zeta.
  destruct Hk as [(-> & -> & Hr)|(-> & -> & Hr)].
  - rewrite (error_return_other codec _ _ s) by done.
    by rewrite (dispatch_update_raises codec conf clock _ _ _ e).
  - rewrite (error_return_other codec _ _ s) by done.
    by rewrite (dispatch_notification_raises codec conf clock _ _ _ e).
Qed.

Lemma parse_buffer_swallows_witness :
  let msg := replicate 16 xff ++ [x00; x14; x03; x06] in
  parse_buffer demo.codec demo.conf demo.clock (demo.with_buffer msg)
  = (Ok true,
     set_receive_buffer []
       (set_calls [Codec_parse KNotification [x06]]
          (set_ticks 1 (demo.with_buffer msg)))).
Proof.
  intros msg.
  exact (parse_buffer_swallows demo.codec demo.conf demo.clock
           (demo.with_buffer msg) msg [] (replicate 16 xff) 3%nat KNotification
           OtherException (eq_sym (app_nil_r msg)) eq_refl eq_refl ltac:(simpl; lia)
           (or_intror (conj eq_refl (conj eq_refl eq_refl)))).
Defined.

(** X7. A whole Notification that decodes is counted once, archived under
    type 3 and (0, 0) with a timestamp read from the clock a second time
    (after the reading taken when the message was received), reported to
    the FSM with its error and sub-error, and dropped from the buffer;
    [parse_buffer] returns [True]. *)
Theorem parse_buffer_notification
    (codec : Codec) (conf : Conf) (clock : nat -> Z)
    (s : BGP) (msg rest marker : bytes) (error suberror : Z) (data : bytes) :
  receive_buffer s = msg ++ rest ->
  take 16 msg = replicate 16 xff ->
  header msg = Ok (marker, length msg, bgp_cons.MSG_NOTIFICATION) ->
  (length msg <= 4096)%nat ->
  Notification_parse codec (drop 19 msg) = Ok (error, suberror, data) ->
  parse_buffer codec conf clock s
  = (Ok true,
     set_receive_buffer rest
       (set_calls
          (calls s ++
           [Codec_parse KNotification (drop 19 msg);
            Factory_write_msg (clock (S (ticks s))) 3
              (PNotification error suberror data) (0, 0) true;
            Fsm_notification_received error suberror])
          (set_ticks (S (S (ticks s)))
             (set_msg_recv_stat (incr_Notifications (msg_recv_stat s)) s)))).
Proof.
  intros Hb Hm Hh Hn Hp.
  rewrite (parse_buffer_one codec conf clock s msg rest marker _) by done.
  cbn zeta. rewrite (error_return_other codec _ _ s) by done.
  by rewrite (dispatch_notification codec conf clock _ _ _ error suberror data).
Qed.

Lemma parse_buffer_notification_witness :
  let msg := replicate 16 xff ++ [x00; x15; x03; x06; x02] in
  parse_buffer demo.codec demo.conf demo.clock (demo.with_buffer msg)
  = (Ok true,
     set_receive_buffer []
       (set_calls
          [Codec_parse KNotification [x06; x02];
           Factory_write_msg 1001 3 (PNotification 6 2 []) (0, 0) true;
           Fsm_notification_received 6 2]
          (set_ticks 2
             (set_msg_recv_stat (incr_Notifications stat0) (demo.with_buffer msg))))).
Proof.
  intros msg.
  exact (parse_buffer_notification demo.codec demo.conf demo.clock
           (demo.with_buffer msg) msg [] (replicate 16 xff) 6 2 []
           (eq_sym (app_nil_r msg)) eq_refl eq_refl ltac:(simpl; lia) eq_refl).
Defined.

(** X8. A whole Open that decodes and comes from the expected AS is always
    consumed: it is counted, the capabilities it advertises replace the
    remote ones, the four-octet-AS flag is set if it advertises
    [four_bytes_as] (and is left as it was otherwise), the peer id is
    recorded, the hold time and the keepalive interval are negotiated and
    the FSM is told that an Open was received. This is so even when the
    negotiated hold time is unacceptable: the FSM is then told of the Open
    error first and of the received Open right after. *)
Theorem parse_buffer_open_accepted
    (codec : Codec) (conf : Conf) (clock : nat -> Z)
    (s : BGP) (msg rest marker : bytes) (m : OpenMsg) :
  receive_buffer s = msg ++ rest ->
  take 16 msg = replicate 16 xff ->
  header msg = Ok (marker, length msg, bgp_cons.MSG_OPEN) ->
  (length msg <= 4096)%nat ->
  Open_parse codec (drop 19 msg) = Ok m ->
  asn m = peer_asn (fsm s) ->
  let negotiated := Z.min (hold_time (fsm s)) (open_hold_time m) in
  exists s',
    parse_buffer codec conf clock s = (Ok true, s') /\
    receive_buffer s' = rest /\
    Opens (msg_recv_stat s') = S (Opens (msg_recv_stat s)) /\
    remote (capability s') = capa_dict m /\
    fourbytesas s' = fourbytesas s || dict_mem "four_bytes_as" (capa_dict m) /\
    peer_id s' = Some (bgp_id m) /\
    hold_time (fsm s') = negotiated /\
    keep_alive_time (fsm s') = negotiated / 3 /\
    new_calls s s'
    = [Codec_parse KOpen (drop 19 msg);
       Factory_write_msg (clock (ticks s)) 1 (POpen m) (0, 0) true;
       Peering_set_peer_id (bgp_id m)]
      ++ (if negb (negotiated =? 0) && (negotiated <? 3)
          then [Fsm_open_message_error bgp_cons.ERR_MSG_OPEN_UNACCPT_HOLD_TIME]
          else [])
      ++ [Fsm_open_received].
Proof.
  intros Hb Hm Hh Hn Hp Ha negotiated.
  rewrite (parse_buffer_one codec conf clock s msg rest marker _) by done.
  cbn zeta.
  assert (error_return codec s bgp_cons.MSG_OPEN (drop 19 msg) = false) as ->.
  { unfold error_return. simpl. by rewrite Hp, Ha, Z.eqb_refl. }
  rewrite (dispatch_open_accepted codec conf clock _ _ _ m) by done.
  eexists. split; [reflexivity|]. simpl. fold negotiated.
  repeat split; try reflexivity.
  by apply new_calls_app.
Qed.

Lemma parse_buffer_open_accepted_witness :
  exists s',
    parse_buffer demo.codec demo.conf demo.clock (demo.with_buffer demo.open_msg)
    = (Ok true, s') /\
    hold_time (fsm s') = 90 /\
    keep_alive_time (fsm s') = 30 /\
    peer_id s' = Some 167772162.
Proof.
  destruct (parse_buffer_open_accepted demo.codec demo.conf demo.clock
              (demo.with_buffer demo.open_msg) demo.open_msg [] (replicate 16 xff)
              {| version := 4; asn := 65001; open_hold_time := 90;
                 bgp_id := 167772162; capa_dict := [] |}
              (eq_sym (app_nil_r _)) eq_refl eq_refl ltac:(simpl; lia) eq_refl eq_refl)
    as (s' & Hp & _ & _ & _ & _ & Hid & Hh & Hk & _).
  exists s'. split; [exact Hp|]. split; [exact Hh|]. split; [exact Hk|exact Hid].
Defined.

(** X9. A message that arrives in two pieces is handled as if it had
    arrived in one. While only a proper prefix of a message with a valid
    header (or less than a header) is buffered, a data event does nothing
    but store the bytes: nothing is called, counted or timed; and the
    event that brings the rest finds the object that one event with all
    the bytes would have found. *)
Theorem dataReceived_fragment
    (codec : Codec) (conf : Conf) (clock : nat -> Z)
    (s : BGP) (a b marker : bytes) (ty fuel : nat) :
  receive_buffer s = [] ->
  take 16 (a ++ b) = replicate 16 xff ->
  header (a ++ b) = Ok (marker, length (a ++ b), ty) ->
  (length (a ++ b) <= 4096)%nat ->
  b <> [] ->
  dataReceived codec conf clock (S fuel) a s = Some (Ok tt, set_receive_buffer a s) /\
  forall fuel' rest,
    dataReceived codec conf clock fuel' (b ++ rest) (set_receive_buffer a s)
    = dataReceived codec conf clock fuel' (a ++ b ++ rest) s.
Proof.
  intros Hb Hm Hh Hn Hne. split.
  - unfold dataReceived. rewrite Hb. simpl app. cbn [drain].
    destruct (Nat.lt_ge_cases (length a) 19) as [Hlt|Hge].
    + by rewrite parse_buffer_short.
    + rewrite (parse_buffer_incomplete codec conf clock _ marker (length (a ++ b)) ty);
        [done|simpl..].
      * by rewrite take_app_le in Hm by lia.
      * by rewrite header_app in Hh.
      * apply header_length in Hh. lia.
      * rewrite length_app. destruct b; [done|]. simpl. lia.
  - intros fuel' rest. unfold dataReceived. simpl. by rewrite Hb.
Qed.

Lemma dataReceived_fragment_witness :
  let a := take 20 demo.open_msg in
  let b := drop 20 demo.open_msg in
  dataReceived demo.codec demo.conf demo.clock 1 a demo.session
  = Some (Ok tt, set_receive_buffer a demo.session) /\
  dataReceived demo.codec demo.conf demo.clock 2 (b ++ []) (set_receive_buffer a demo.session)
  = dataReceived demo.codec demo.conf demo.clock 2 (a ++ b ++ []) demo.session.
Proof.
  intros a b.
  assert (Hne : b <> []) by discriminate.
  destruct (dataReceived_fragment demo.codec demo.conf demo.clock demo.session a b
              (replicate 16 xff) 1%nat 0%nat eq_refl eq_refl eq_refl
              ltac:(simpl; lia) Hne) as (H1 & H2).
  split; [exact H1|exact (H2 2%nat [])].
Defined.

(** ** Capability negotiation, exactly *)

Lemma first_missing_in {V} (d : dict V) (pending : list string) (k : string) :
  first_missing d pending = Some k -> k ∈ pending /\ dict_mem k d = false.
Proof.
  induction pending as [|c rest IH]; simpl; [done|].
  destruct (dict_mem c d) eqn:E.
  - intros H. destruct (IH H). split; [by right|done].
  - intros [= <-]. split; [by left|done].
Qed.

Lemma capability_loop_exact (pending : list string) (s : BGP) :
  (forall k, k ∈ pending -> k ∈ dict_keys (local (capability s))) ->
  capability_loop (length (local (capability s))) pending s
  = match first_missing (remote (capability s)) pending with
    | None => (Ok tt, s)
    | Some k =>
        (Raise RuntimeError,
         set_capability (set_local (dict_pop k (local (capability s))) (capability s)) s)
    end.
Proof.
  induction pending as [|c rest IH]; intros Hin; simpl; rewrite Nat.eqb_refl; simpl.
  - done.
  - destruct (dict_mem c (remote (capability s))) eqn:E; simpl.
    + apply IH. intros k Hk. apply Hin. by right.
    + apply capability_loop_changed. simpl.
      pose proof (dict_pop_shorter c (local (capability s)) (Hin c ltac:(by left))). lia.
Qed.

(** X10. [capability_negotiate] removes at most one capability per call.
    When the peer has advertised nothing, or when every configured
    capability is among those it advertised, the method returns and
    changes nothing. Otherwise it removes from the configured capabilities
    the first one, in iteration order, that the peer did not advertise,
    and raises [RuntimeError]: the capabilities after it are not
    examined. *)
Theorem capability_negotiate_exact (s : BGP) :
  capability_negotiate s
  = match (if dict_truthy (remote (capability s))
           then first_missing (remote (capability s)) (dict_keys (local (capability s)))
           else None) with
    | None => (Ok tt, s)
    | Some k =>
        (Raise RuntimeError,
         set_capability (set_local (dict_pop k (local (capability s))) (capability s)) s)
    end.
Proof.
  unfold capability_negotiate. destruct (dict_truthy (remote (capability s))); [|done].
  by apply capability_loop_exact.
Qed.

(** ** The senders *)

(** X11. [send_update] never raises. When the Update can be built it is
    written to the transport, once, the counter of sent Updates goes up by
    one and the method returns [True]; when building it raises, nothing is
    written, nothing is counted and the method returns [False]. *)
Theorem send_update_outcome (codec : Codec) (msg : payload) (s : BGP) :
  send_update codec msg s
  = match Update_construct codec msg (fourbytesas s) with
    | Ok data =>
        (Ok true,
         set_msg_sent_stat (incr_Updates (msg_sent_stat s))
           (set_calls (calls s ++ [Transport_write data]) s))
    | Raise _ => (Ok false, s)
    end.
Proof.
  unfold send_update, transport_write. run_method.
  by destruct (Update_construct codec msg (fourbytesas s)).
Qed.

(** X12. [send_open] sends the Open only if the negotiation that it starts
    with returns. When the peer has advertised something and a configured
    capability is not among it, [send_open] raises [RuntimeError] having
    removed that one capability: nothing is written and nothing counted.
    Otherwise the Open is built from version 4, the local AS, the hold
    time of the FSM, the BGP id and all the configured capabilities; it is
    written once and counted once after the write, and an exception of
    the codec passes through with nothing written or counted. *)
Theorem send_open_outcome (codec : Codec) (conf : Conf) (s : BGP) :
  send_open codec conf s
  = match (if dict_truthy (remote (capability s))
           then first_missing (remote (capability s)) (dict_keys (local (capability s)))
           else None) with
    | Some k =>
        (Raise RuntimeError,
         set_capability (set_local (dict_pop k (local (capability s))) (capability s)) s)
    | None =>
        match Open_construct codec bgp_cons.VERSION (my_asn conf) (hold_time (fsm s))
                (factory_bgp_id conf) (local (capability s)) with
        | Ok data =>
            (Ok tt,
             set_msg_sent_stat (incr_Opens (msg_sent_stat s))
               (set_calls (calls s ++ [Transport_write data]) s))
        | Raise e => (Raise e, s)
        end
    end.
Proof.
  unfold send_open. unfold bind at 1. unfold capability_negotiate.
  destruct (dict_truthy (remote (capability s))).
  2: { unfold transport_write. run_method.
       by destruct (Open_construct codec bgp_cons.VERSION (my_asn conf)
                      (hold_time (fsm s)) (factory_bgp_id conf) (local (capability s))). }
  rewrite capability_loop_exact by done.
  destruct (first_missing (remote (capability s)) (dict_keys (local (capability s))));
    [done|].
  unfold transport_write. run_method.
  by destruct (Open_construct codec bgp_cons.VERSION (my_asn conf) (hold_time (fsm s))
                 (factory_bgp_id conf) (local (capability s))).
Qed.

(** X13. [send_route_refresh] returns [True] only after having written one
    RouteRefresh to the transport and counted it once, which needs a peer
    that advertised a route-refresh capability and the address family
    asked for; the vendor type code 128 is used whenever the peer
    advertised the vendor variant, the standard one only otherwise. In
    every other case, [False] or an exception, nothing is written and
    nothing counted; and as long as the remote capabilities lack the key
    [cisco_route_refresh] (so before any Open of the peer), the method
    raises [KeyError]. *)
Theorem send_route_refresh_outcome
    (codec : Codec) (afi safi res : Z) (s : BGP) :
  let r := (send_route_refresh codec afi safi res s).1 in
  let s' := (send_route_refresh codec afi safi res s).2 in
  let peer := remote (capability s) in
  (r = Ok true ->
   exists cisco pairs ty data,
     dict_get "cisco_route_refresh" peer = Ok cisco /\
     ty = (if truthy_capval cisco
           then bgp_cons.MSG_CISCOROUTEREFRESH else bgp_cons.MSG_ROUTEREFRESH) /\
     (truthy_capval cisco = false ->
      exists rr, dict_get "route_refresh" peer = Ok rr /\ truthy_capval rr = true) /\
     dict_get "afi_safi" peer = Ok (CapAfiSafi pairs) /\
     (afi, safi) ∈ pairs /\
     RouteRefresh_construct codec afi safi res ty = Ok data /\
     s' = set_msg_sent_stat (incr_RouteRefresh (msg_sent_stat s))
            (set_calls (calls s ++ [Transport_write data]) s)) /\
  (r <> Ok true -> s' = s) /\
  (dict_get "cisco_route_refresh" peer = Raise KeyError -> r = Raise KeyError).
Proof.
  intros r s' peer. subst r s' peer.
  unfold send_route_refresh, transport_write. run_method.
  destruct (dict_get "cisco_route_refresh" (remote (capability s))) as [cisco|e] eqn:Ec;
    simpl; [|repeat split; try done; by intros [= ->]].
  destruct (truthy_capval cisco) eqn:Hc.
  - destruct (dict_get "afi_safi" (remote (capability s))) as [[| |pairs|]|e] eqn:Ea;
      simpl; try (repeat split; done).
    destruct (bool_decide ((afi, safi) ∈ pairs)) eqn:Hin; simpl; [|repeat split; done].
    apply bool_decide_eq_true in Hin.
    destruct (RouteRefresh_construct codec afi safi res bgp_cons.MSG_CISCOROUTEREFRESH)
      as [data|e] eqn:Ed; simpl; [|repeat split; done].
    split; [|split; done]. intros _.
    exists cisco, pairs, bgp_cons.MSG_CISCOROUTEREFRESH, data.
    rewrite Hc. repeat split; try done.
  - destruct (dict_get "route_refresh" (remote (capability s))) as [rr|e] eqn:Er;
      simpl; [|repeat split; done].
    destruct (truthy_capval rr) eqn:Hr; simpl; [|repeat split; done].
    destruct (dict_get "afi_safi" (remote (capability s))) as [[| |pairs|]|e] eqn:Ea;
      simpl; try (repeat split; done).
    destruct (bool_decide ((afi, safi) ∈ pairs)) eqn:Hin; simpl; [|repeat split; done].
    apply bool_decide_eq_true in Hin.
    destruct (RouteRefresh_construct codec afi safi res bgp_cons.MSG_ROUTEREFRESH)
      as [data|e] eqn:Ed; simpl; [|repeat split; done].
    split; [|split; done]. intros _.
    exists cisco, pairs, bgp_cons.MSG_ROUTEREFRESH, data.
    rewrite Hc. repeat split; try done. intros _. by exists rr.
Qed.

Lemma send_route_refresh_outcome_witness :
  (send_route_refresh demo.codec 1 1 0 demo.session).1 = Raise KeyError /\
  (send_route_refresh demo.codec 1 1 0 demo.session).2 = demo.session.
Proof.
  destruct (send_route_refresh_outcome demo.codec 1 1 0 demo.session) as (_ & Hs & Hk).
  assert (Hr : (send_route_refresh demo.codec 1 1 0 demo.session).1 = Raise KeyError)
    by (apply Hk; reflexivity).
  split; [exact Hr|]. apply Hs. rewrite Hr. discriminate.
Defined.

(** ** The connection events *)

(** X14. After [connectionMade] the factory has a BGP id: one that was
    configured is never replaced; a missing one is taken from the local
    address of the transport, and from 127.0.0.1 when that address cannot
    be converted. In all three cases the method returns, having switched
    off Nagle's algorithm first and told the FSM last, once each, whether
    or not the FSM raises; the protocol object is not touched. *)
Theorem connectionMade_bgp_id
    (IPAddress_int : string -> result Z) (fsm_connection_made : result unit)
    (l : Link) (loopback : Z) :
  IPAddress_int "127.0.0.1" = Ok loopback ->
  let l' := (connectionMade IPAddress_int fsm_connection_made l).2 in
  (connectionMade IPAddress_int fsm_connection_made l).1 = Ok tt /\
  bgp_id_of_factory l'
  = Some (match bgp_id_of_factory l with
          | Some configured => configured
          | None =>
              match IPAddress_int (transport_host l) with
              | Ok n => n
              | Raise _ => loopback
              end
          end) /\
  link_calls l' = link_calls l ++ [Transport_setTcpNoDelay true; Fsm_connection_made] /\
  protocol l' = protocol l /\
  transport_connected l' = transport_connected l /\
  transport_host l' = transport_host l.
Proof.
  intros Hl. unfold connectionMade. simpl.
  destruct (bgp_id_of_factory l) as [b|] eqn:Eb; simpl.
  - destruct fsm_connection_made; simpl; rewrite ?Eb, <- ?app_assoc; done.
  - destruct (IPAddress_int (transport_host l)) as [n|e]; simpl.
    + destruct fsm_connection_made; simpl; rewrite <- ?app_assoc; done.
    + rewrite Hl. simpl.
      destruct fsm_connection_made; simpl; rewrite <- ?app_assoc; done.
Qed.

Lemma connectionMade_bgp_id_witness :
  let l := {| protocol := demo.session; transport_connected := true;
              transport_host := "localhost"; bgp_id_of_factory := None;
              link_calls := [] |} in
  let convert := fun host : string =>
                   if String.eqb host "127.0.0.1" then Ok 2130706433
                   else Raise OtherException in
  bgp_id_of_factory (connectionMade convert (Raise OtherException) l).2
  = Some 2130706433.
Proof.
  intros l convert.
  exact (proj1 (proj2 (connectionMade_bgp_id convert (Raise OtherException) l
                         2130706433 eq_refl))).
Defined.

(** X15. [closeConnection] followed by the loss of the connection: when
    the transport was connected, it is asked once to close, the protocol
    is marked as disconnected and nothing else of it changes, and the loss
    is then reported to the factory only, not to the FSM. When the
    transport was not connected, [closeConnection] does nothing at all, so
    the loss of a connection that was not closed from this side is
    reported to the FSM as a failure, and not to the factory.
    [connectionLost] never raises, whether or not the FSM does. *)
Theorem closeConnection_then_connectionLost
    (fsm_connection_failed : result unit) (l : Link) :
  let closed := (closeConnection l).2 in
  let lost := (connectionLost fsm_connection_failed closed).2 in
  (closeConnection l).1 = Ok tt /\
  (connectionLost fsm_connection_failed closed).1 = Ok tt /\
  (transport_connected l = true ->
   protocol closed = set_disconnected true (protocol l) /\
   link_calls lost
   = link_calls l ++ [Transport_loseConnection; Factory_connection_closed]) /\
  (transport_connected l = false ->
   closed = l /\
   (disconnected (protocol l) = false ->
    link_calls lost = link_calls l ++ [Fsm_connection_failed])).
Proof.
  unfold closeConnection, connectionLost.
  destruct (transport_connected l) eqn:Ec; simpl.
  - split; [done|]. split; [done|]. split; [|done].
    intros _. split; [done|]. by rewrite <- app_assoc.
  - split; [done|]. split.
    { destruct (disconnected (protocol l)); [done|].
      by destruct fsm_connection_failed. }
    split; [done|]. intros _. split; [done|]. intros ->.
    by destruct fsm_connection_failed.
Qed.

Lemma closeConnection_then_connectionLost_witness :
  let l := {| protocol := demo.session; transport_connected := true;
              transport_host := "10.0.0.1"; bgp_id_of_factory := Some 167772161;
              link_calls := [] |} in
  link_calls (connectionLost (Ok tt) (closeConnection l).2).2
  = [Transport_loseConnection; Factory_connection_closed].
Proof.
  intros l.
  exact (proj2 (proj1 (proj2 (proj2 (closeConnection_then_connectionLost (Ok tt) l)))
                  eq_refl)).
Defined.

(** ** The configuration *)

Lemma truthy_int_some (o : option Z) :
  config.truthy_int o = true -> exists z, o = Some z /\ z <> 0.
Proof.
  destruct o as [z|]; simpl; [|done].
  intros H. exists z. split; [done|]. intros ->. done.
Qed.

Lemma truthy_str_some (o : option string) :
  config.truthy_str o = true -> exists x, o = Some x /\ x <> ""%string.
Proof.
  destruct o as [x|]; simpl; [|done].
  intros H. exists x. split; [done|]. intros ->. done.
Qed.

(** X16. [get_bgp_config] returns only when no configuration file is
    named and the local AS, the remote AS, the local address and the
    remote address are all given and none is 0 or empty; in every other
    case, a named configuration file included, it ends the process. When
    it returns, the running configuration has, under the remote address,
    an entry with the two AS numbers, the two addresses, the MD5 string,
    the address families, the seven configured capabilities as the local
    ones and no remote capability; the entries of other peers and every
    other option are as they were. *)
Theorem get_bgp_config_outcome (c : config.Options) :
  match config.get_bgp_config c with
  | config.Exit =>
      config.truthy_str (config.config_file c) = true \/
      config.truthy_int (config.opt_local_as c) = false \/
      config.truthy_int (config.opt_remote_as c) = false \/
      config.truthy_str (config.opt_local_addr c) = false \/
      config.truthy_str (config.opt_remote_addr c) = false
  | config.Return c' =>
      config.truthy_str (config.config_file c) = false /\
      exists la ra laddr raddr,
        config.opt_local_as c = Some la /\ la <> 0 /\
        config.opt_remote_as c = Some ra /\ ra <> 0 /\
        config.opt_local_addr c = Some laddr /\ laddr <> ""%string /\
        config.opt_remote_addr c = Some raddr /\ raddr <> ""%string /\
        config.running_config c' !! raddr
        = Some {| config.remote_as := ra; config.remote_addr := raddr;
                  config.local_as := la; config.local_addr := laddr;
                  config.md5 := config.opt_md5 c;
                  config.afi_safi := config.opt_afi_safi c;
                  config.capability :=
                    {| local := config.local_capabilities c; remote := [] |} |} /\
        (forall peer, peer <> raddr ->
                      config.running_config c' !! peer = config.running_config c !! peer) /\
        c' = config.set_running_config (config.running_config c') c
  end.
Proof.
  unfold config.get_bgp_config.
  destruct (config.truthy_str (config.config_file c)) eqn:Ef; [by left|].
  destruct (config.truthy_int (config.opt_local_as c)) eqn:E1; simpl;
    [|right; by left].
  destruct (config.truthy_int (config.opt_remote_as c)) eqn:E2; simpl;
    [|right; right; by left].
  destruct (config.truthy_str (config.opt_local_addr c)) eqn:E3; simpl;
    [|right; right; right; by left].
  destruct (config.truthy_str (config.opt_remote_addr c)) eqn:E4; simpl;
    [|right; right; right; by right].
  apply truthy_int_some in E1 as (la & -> & Hla).
  apply truthy_int_some in E2 as (ra & -> & Hra).
  apply truthy_str_some in E3 as (laddr & -> & Hladdr).
  apply truthy_str_some in E4 as (raddr & Er & Hraddr). rewrite Er.
  split; [done|]. exists la, ra, laddr, raddr. simpl.
  repeat split; try done.
  - by rewrite lookup_insert_eq.
  - intros peer Hne. by rewrite lookup_insert_ne.
Qed.

(** X17. On a peer that [get_bgp_config] has just configured, the first
    Open goes out with all seven configured capabilities: the negotiation
    that [send_open] starts with finds no remote capability, returns and
    removes nothing, and the Open is built from the configured dict as it
    is, written once and counted once. *)
Theorem configured_peer_send_open
    (c c' : config.Options) (raddr : string)
    (codec : Codec) (conf : Conf) (f : FSM) :
  config.get_bgp_config c = config.Return c' ->
  config.opt_remote_addr c = Some raddr ->
  exists entry,
    config.running_config c' !! raddr = Some entry /\
    let s := init f (config.capability entry) in
    local (capability s) = config.local_capabilities c /\
    capability_negotiate s = (Ok tt, s) /\
    send_open codec conf s
    = match Open_construct codec bgp_cons.VERSION (my_asn conf) (hold_time f)
              (factory_bgp_id conf) (config.local_capabilities c) with
      | Ok data =>
          (Ok tt,
           set_msg_sent_stat (incr_Opens stat0) (set_calls [Transport_write data] s))
      | Raise e => (Raise e, s)
      end.
Proof.
  intros Hg Hr. unfold config.get_bgp_config in Hg.
  destruct (config.truthy_str (config.config_file c)); [done|].
  destruct (config.truthy_int (config.opt_local_as c) &&
            config.truthy_int (config.opt_remote_as c) &&
            config.truthy_str (config.opt_local_addr c) &&
            config.truthy_str (config.opt_remote_addr c)); [|done].
  rewrite Hr in Hg.
  destruct (config.opt_local_as c) as [la|]; [|done].
  destruct (config.opt_remote_as c) as [ra|]; [|done].
  destruct (config.opt_local_addr c) as [laddr|]; [|done].
  injection Hg as <-. simpl.
  eexists. split; [apply lookup_insert_eq|]. simpl.
  split; [done|]. split; [done|].
  unfold send_open, capability_negotiate, transport_write. run_method.
  by destruct (Open_construct codec bgp_cons.VERSION (my_asn conf) (hold_time f)
                 (factory_bgp_id conf) (config.local_capabilities c)).
Qed.

Lemma configured_peer_send_open_witness :
  let c := {| config.opt_afi_safi := ["ipv4"%string];
              config.opt_four_bytes_as := true; config.opt_route_refresh := true;
              config.opt_cisco_route_refresh := true;
              config.opt_enhanced_route_refresh := true; config.opt_add_path := 1;
              config.opt_graceful_restart := true;
              config.opt_cisco_multi_session := true;
              config.running_config := ∅; config.config_file := None;
              config.opt_remote_as := Some 65001; config.opt_local_as := Some 65000;
              config.opt_remote_addr := Some "10.0.0.2"%string;
              config.opt_local_addr := Some "0.0.0.0"%string;
              config.opt_md5 := None |} in
  exists c' entry,
    config.get_bgp_config c = config.Return c' /\
    config.running_config c' !! "10.0.0.2"%string = Some entry /\
    capability_negotiate (init demo.fsm0 (config.capability entry))
    = (Ok tt, init demo.fsm0 (config.capability entry)).
Proof.
  intros c. eexists.
  assert (Hg : config.get_bgp_config c = config.Return _) by reflexivity.
  destruct (configured_peer_send_open c _ "10.0.0.2"%string demo.codec demo.conf
              demo.fsm0 Hg eq_refl) as (entry & He & _ & Hn & _).
  exists entry. split; [exact Hg|]. split; [exact He|exact Hn].
Defined.

(** ** Buffers that the loop cannot get past *)

(** X18. A synchronised header that declares length 0 is never got past:
    when it stands at the head of the buffer and the (empty) body of a
    message of its type is not one that [parse_buffer] returns on,
    [parse_buffer] returns [True] without taking a byte from the buffer,
    so the loop of [dataReceived] has not ended after any number of calls,
    whatever bytes the event brought behind that header. *)
Theorem dataReceived_zero_length
    (codec : Codec) (conf : Conf) (clock : nat -> Z)
    (marker data : bytes) (ty fuel : nat) (s : BGP) :
  take 16 (receive_buffer s) = replicate 16 xff ->
  header (receive_buffer s) = Ok (marker, 0%nat, ty) ->
  (forall s1, error_return codec s1 ty [] = false) ->
  dataReceived codec conf clock fuel data s = None.
Proof.
  intros Hm Hh He. unfold dataReceived.
  pose proof (header_length _ _ _ _ Hh) as H19.
  apply (drain_zero_length codec conf clock marker ty); simpl.
  - by rewrite take_app_le by lia.
  - by rewrite header_app.
  - exact He.
Qed.

Lemma dataReceived_zero_length_witness :
  dataReceived demo.codec demo.conf demo.clock 40 demo.keepalive_msg
    (demo.with_buffer (replicate 16 xff ++ [x00; x00; x04]))
  = None.
Proof.
  exact (dataReceived_zero_length demo.codec demo.conf demo.clock (replicate 16 xff)
           demo.keepalive_msg 4%nat 40%nat
           (demo.with_buffer (replicate 16 xff ++ [x00; x00; x04]))
           eq_refl eq_refl (fun _ => eq_refl)).
Defined.

Section Stuck.

Variables (codec : Codec) (conf : Conf) (clock : nat -> Z).

Lemma receive_all_unsync (fuel : nat) (chunks : list bytes) (s : BGP) :
  (19 <= length (receive_buffer s))%nat ->
  take 16 (receive_buffer s) <> replicate 16 xff ->
  exists s',
    receive_all codec conf clock (S fuel) chunks s = Some (Ok tt, s') /\
    receive_buffer s' = receive_buffer s ++ concat chunks /\
    calls s'
    = calls s ++ replicate (length chunks)
                   (Fsm_header_error bgp_cons.ERR_MSG_HDR_CONN_NOT_SYNC None) /\
    msg_recv_stat s' = msg_recv_stat s /\
    ticks s' = ticks s.
Proof.
  revert s. induction chunks as [|data rest IH]; intros s H19 Hm; simpl.
  - exists s. by rewrite !app_nil_r.
  - unfold dataReceived. cbn [drain].
    rewrite parse_buffer_unsync;
      [|simpl; rewrite length_app; lia|simpl; by rewrite take_app_le by lia].
    destruct (IH (set_calls
                    (calls s ++ [Fsm_header_error bgp_cons.ERR_MSG_HDR_CONN_NOT_SYNC None])
                    (set_receive_buffer (receive_buffer s ++ data) s)))
      as (s' & Hr & Hb & Hc & Hst & Ht).
    + simpl. rewrite length_app. lia.
    + simpl. by rewrite take_app_le by lia.
    + exists s'. split; [exact Hr|]. simpl in *.
      rewrite Hb, Hc, <- !app_assoc. done.
Qed.

End Stuck.

(** X19. A session whose buffer starts with 19 bytes or more that are not
    a marker never synchronises again: whatever chunks of bytes arrive
    afterwards, each data event appends its bytes to the buffer, reports
    the lost synchronisation to the FSM once more and does nothing else:
    no byte is ever consumed, no message decoded or counted. *)
Theorem unsynchronized_for_ever
    (codec : Codec) (conf : Conf) (clock : nat -> Z)
    (fuel : nat) (chunks : list bytes) (s : BGP) :
  (19 <= length (receive_buffer s))%nat ->
  take 16 (receive_buffer s) <> replicate 16 xff ->
  exists s',
    receive_all codec conf clock (S fuel) chunks s = Some (Ok tt, s') /\
    receive_buffer s' = receive_buffer s ++ concat chunks /\
    new_calls s s'
    = replicate (length chunks)
        (Fsm_header_error bgp_cons.ERR_MSG_HDR_CONN_NOT_SYNC None) /\
    msg_recv_stat s' = msg_recv_stat s.
Proof.
  intros H19 Hm.
  destruct (receive_all_unsync codec conf clock fuel chunks s H19 Hm)
    as (s' & Hr & Hb & Hc & Hst & _).
  exists s'. split; [exact Hr|]. split; [exact Hb|]. split; [|exact Hst].
  by apply new_calls_app.
Qed.

Lemma unsynchronized_for_ever_witness :
  let s := demo.with_buffer (replicate 19 x00) in
  exists s',
    receive_all demo.codec demo.conf demo.clock 1
      [demo.keepalive_msg; demo.open_msg] s = Some (Ok tt, s') /\
    receive_buffer s' = replicate 19 x00 ++ demo.keepalive_msg ++ demo.open_msg /\
    msg_recv_stat s' = stat0.
Proof.
  intros s.
  assert (H19 : (19 <= length (receive_buffer s))%nat) by (simpl; lia).
  assert (Hm : take 16 (receive_buffer s) <> replicate 16 xff) by discriminate.
  destruct (unsynchronized_for_ever demo.codec demo.conf demo.clock 0
              [demo.keepalive_msg; demo.open_msg] s H19 Hm)
    as (s' & Hr & Hb & _ & Hst).
  exists s'. split; [exact Hr|]. split; [|exact Hst].
  rewrite Hb. reflexivity.
Defined.

(** ** KeepAlives *)

(** X20. [send_keepalive] counts the KeepAlive before it builds it: the
    counter of sent KeepAlives goes up by one in every case, and when the
    codec raises, the exception passes through with the KeepAlive counted
    although nothing was written. When the codec returns, the message is
    written to the transport once. *)
Theorem send_keepalive_outcome (codec : Codec) (s : BGP) :
  send_keepalive codec s
  = match KeepAlive_construct codec with
    | Ok data =>
        (Ok tt,
         set_calls (calls s ++ [Transport_write data])
           (set_msg_sent_stat (incr_Keepalives (msg_sent_stat s)) s))
    | Raise e => (Raise e, set_msg_sent_stat (incr_Keepalives (msg_sent_stat s)) s)
    end.
Proof.
  unfold send_keepalive, transport_write. run_method.
  by destruct (KeepAlive_construct codec).
Qed.

(** X21. A whole KeepAlive that decodes is counted once, archived under
    type 4 and (0, 0) with the time of its reception if and only if
    [write_keepalive] is set, reported to the FSM and dropped from the
    buffer; [parse_buffer] returns [True]. *)
Theorem parse_buffer_keepalive
    (codec : Codec) (conf : Conf) (clock : nat -> Z)
    (s : BGP) (msg rest marker : bytes) :
  receive_buffer s = msg ++ rest ->
  take 16 msg = replicate 16 xff ->
  header msg = Ok (marker, length msg, bgp_cons.MSG_KEEPALIVE) ->
  (length msg <= 4096)%nat ->
  KeepAlive_parse codec (drop 19 msg) = Ok tt ->
  parse_buffer codec conf clock s
  = (Ok true,
     set_receive_buffer rest
       (set_calls
          (calls s ++
           [Codec_parse KKeepAlive (drop 19 msg)]
           ++ (if write_keepalive conf
               then [Factory_write_msg (clock (ticks s)) 4 PNone (0, 0) true]
               else [])
           ++ [Fsm_keep_alive_received])
          (set_msg_recv_stat (incr_Keepalives (msg_recv_stat s))
             (set_ticks (S (ticks s)) s)))).
Proof.
  intros Hb Hm Hh Hn Hp.
  rewrite (parse_buffer_one codec conf clock s msg rest marker _) by done.
  cbn zeta.
  assert (error_return codec s bgp_cons.MSG_KEEPALIVE (drop 19 msg) = false) as ->.
  { unfold error_return. simpl. by rewrite Hp. }
  run_method. rewrite Hp. simpl.
  destruct (write_keepalive conf); simpl; by rewrite <- !app_assoc.
Qed.

Lemma parse_buffer_keepalive_witness :
  parse_buffer demo.codec demo.conf demo.clock (demo.with_buffer demo.keepalive_msg)
  = (Ok true,
     set_receive_buffer []
       (set_calls
          [Codec_parse KKeepAlive [];
           Factory_write_msg 1000 4 PNone (0, 0) true;
           Fsm_keep_alive_received]
          (set_msg_recv_stat (incr_Keepalives stat0)
             (set_ticks 1 (demo.with_buffer demo.keepalive_msg))))).
Proof.
  exact (parse_buffer_keepalive demo.codec demo.conf demo.clock
           (demo.with_buffer demo.keepalive_msg) demo.keepalive_msg []
           (replicate 16 xff) (eq_sym (app_nil_r _)) eq_refl eq_refl
           ltac:(simpl; lia) eq_refl).
Defined.
